(** * MovieQuest: the poster text-removal pipeline

    A shallow embedding of [image_processor.py] ([get_reader],
    [detect_and_blur_text], [save_processed_image]) and of the route
    [get_processed_poster] of [app.py], with the properties the
    specification states about them; then of the rest of [app.py] (the
    leaderboard, [get_movie_question] and the game routes), with
    properties read off the code.

    Conventions.
    - A raster is the list of its rows, a row the list of its BGR pixels;
      [img.shape[0]] is the number of rows, [img.shape[1]] the length of a
      row.  A mask is a raster of single bytes.
    - Python [int]s are [Z].  Python [float]s (the OCR confidence, the raw
      corner coordinates) are rationals: the code only compares them and
      truncates them, [astype(int)] being truncation toward zero.
    - The world outside the program (network, image decoder, OCR engine,
      inpainting, file system) is an [Env] of oracles and a [World] state
      threaded through an exception monad; every call to the outside is
      logged in the world's trace.
    - A Python [str] is the [string] of the bytes of its UTF-8 encoding.
    - [print] calls are omitted.
    - The leaderboard file is given by the list its JSON text decodes to;
      the Flask session by the four keys the routes use; templates by the
      values handed to [render_template]. *)

From Stdlib Require Import ZArith QArith Lia List String Ascii Sorted.
From Stdlib.Strings Require Import Byte.
From stdpp Require Import gmap strings list fin_maps.

Local Open Scope Z_scope.

(** ** Rasters and masks *)

Definition Pixel : Type := (Z * Z * Z)%type.
Abbreviation Raster := (list (list Pixel)).
Abbreviation Mask := (list (list Z)).

Definition shape0 {A} (img : list (list A)) : Z := Z.of_nat (length img).
Definition shape1 {A} (img : list (list A)) : Z :=
  Z.of_nat (length (hd [] img)).

(** [m[y][x]] for a position inside the array. *)
Definition pixel_at {A} (m : list (list A)) (x y : nat) : option A :=
  m !! y ≫= (fun row => row !! x).

(** [np.zeros(img.shape[:2], dtype=np.uint8)] *)
Definition np_zeros {A} (img : list (list A)) : Mask :=
  replicate (length img) (replicate (length (hd [] img)) 0).

(** ** Detections *)

Definition Point : Type := (Q * Q)%type.

Record Quad := mkQuad { p1 : Point; p2 : Point; p3 : Point; p4 : Point }.

Record Detection := mkDetection {
  bbox : Quad;
  text : string;
  confidence : Q
}.

(** [.astype(int)] on one coordinate: truncation toward zero. *)
Definition astype_int (q : Q) : Z := Z.quot (Qnum q) (Z.pos (Qden q)).

(** [bbox[:, 0]] and [bbox[:, 1]] after [np.array(bbox).astype(int)]. *)
Definition column0 (b : Quad) : list Z :=
  [astype_int (fst (p1 b)); astype_int (fst (p2 b));
   astype_int (fst (p3 b)); astype_int (fst (p4 b))].
Definition column1 (b : Quad) : list Z :=
  [astype_int (snd (p1 b)); astype_int (snd (p2 b));
   astype_int (snd (p3 b)); astype_int (snd (p4 b))].

(** [.min()] and [.max()] of a column (the four rows are always there). *)
Definition np_min (col : list Z) : Z :=
  match col with
  | [] => 0
  | c :: cs => fold_left Z.min cs c
  end.
Definition np_max (col : list Z) : Z :=
  match col with
  | [] => 0
  | c :: cs => fold_left Z.max cs c
  end.

(** ** Exceptions *)

(** A Python exception, by the name of its class. *)
Inductive Exn := Exception (cls : string).

Inductive Result (A : Type) :=
| Ok (a : A)
| Raise (e : Exn).
Arguments Ok {A} a.
Arguments Raise {A} e.

(** ** Regions *)

Record Region := mkRegion { x_min : Z; y_min : Z; x_max : Z; y_max : Z }.

(** Lines 71-82 of [image_processor.py]: bounding rectangle, clamp,
    padding, clamp again.  [h] is [img.shape[0]], [w] is [img.shape[1]]. *)
Definition region_of (h w padding : Z) (b : Quad) : Region :=
  let x_min0 := Z.max 0 (np_min (column0 b)) in
  let y_min0 := Z.max 0 (np_min (column1 b)) in
  let x_max0 := Z.min w (np_max (column0 b)) in
  let y_max0 := Z.min h (np_max (column1 b)) in
  {| x_min := Z.max 0 (x_min0 - padding);
     y_min := Z.max 0 (y_min0 - padding);
     x_max := Z.min w (x_max0 + padding);
     y_max := Z.min h (y_max0 + padding) |}.


(** What [cv2.rectangle] with thickness [-1] fills: the rectangle with
    opposite corners [(x_min, y_min)] and [(x_max, y_max)], both corners
    included, whichever way round the corners are.  It is the rectangle of
    the region when [x_min <= x_max] and [y_min <= y_max]. *)
Definition in_footprint (r : Region) (x y : Z) : Prop :=
  Z.min (x_min r) (x_max r) <= x <= Z.max (x_min r) (x_max r) /\
  Z.min (y_min r) (y_max r) <= y <= Z.max (y_min r) (y_max r).

Definition in_footprintb (r : Region) (x y : Z) : bool :=
  (Z.min (x_min r) (x_max r) <=? x) && (x <=? Z.max (x_min r) (x_max r)) &&
  (Z.min (y_min r) (y_max r) <=? y) && (y <=? Z.max (y_min r) (y_max r)).

(** The mask after a call of [cv2.rectangle] that returns: every pixel of
    the mask in the footprint takes [color]; what lies outside the mask is
    clipped. *)
Definition paint_rectangle (mask : Mask) (r : Region) (color : Z) : Mask :=
  imap (fun y row =>
          imap (fun x v =>
                  if in_footprintb r (Z.of_nat x) (Z.of_nat y) then color
                  else v)
               row)
       mask.

(** A coordinate the binding of [cv2.rectangle] can read: a C [int]. *)
Definition fits_c_int (z : Z) : bool :=
  (-2147483648 <=? z) && (z <=? 2147483647).

Definition corners_parse (r : Region) : bool :=
  fits_c_int (x_min r) && fits_c_int (y_min r) &&
  fits_c_int (x_max r) && fits_c_int (y_max r).

(** [cv2.rectangle(mask, (x_min, y_min), (x_max, y_max), color, -1)]: it
    raises when a corner does not fit a C [int], and paints otherwise. *)
Definition cv2_rectangle (mask : Mask) (r : Region) (color : Z)
    : Result Mask :=
  if corners_parse r then Ok (paint_rectangle mask r color)
  else Raise (Exception "cv2.error").

(** ** Mask builder: the loop of lines 63-87 *)

(** [confidence > threshold] *)
Definition accepted (threshold : Q) (d : Detection) : bool :=
  match Qcompare (confidence d) threshold with
  | Gt => true
  | _ => false
  end.

(** The body of the loop, as the source has it: the call of
    [cv2.rectangle] may raise, and that ends the loop. *)
Definition loop_step (threshold : Q) (padding : Z) (h w : Z)
    (st : Mask * Z) (d : Detection) : Result (Mask * Z) :=
  let '(mask, inpaint_count) := st in
  if accepted threshold d then
    match cv2_rectangle mask (region_of h w padding (bbox d)) 255 with
    | Ok mask' => Ok (mask', inpaint_count + 1)
    | Raise e => Raise e
    end
  else Ok (mask, inpaint_count).

Fixpoint loop_from (threshold : Q) (padding : Z) (h w : Z)
    (detections : list Detection) (st : Mask * Z) : Result (Mask * Z) :=
  match detections with
  | [] => Ok st
  | d :: rest =>
      match loop_step threshold padding h w st d with
      | Ok st' => loop_from threshold padding h w rest st'
      | Raise e => Raise e
      end
  end.

(** Lines 49 and 63-87: the mask of zeros, then the loop. *)
Definition mask_loop (threshold : Q) (padding : Z) {A}
    (img : list (list A)) (detections : list Detection)
    : Result (Mask * Z) :=
  loop_from threshold padding (shape0 img) (shape1 img) detections
            (np_zeros img, 0).

(** The body of the loop when the call of [cv2.rectangle] returns, and
    the mask and count the loop then leaves ([mask_loop_eq] below: the
    loop returns exactly this, or raises). *)
Definition mask_step (threshold : Q) (padding : Z) (h w : Z)
    (st : Mask * Z) (d : Detection) : Mask * Z :=
  let '(mask, inpaint_count) := st in
  if accepted threshold d then
    (paint_rectangle mask (region_of h w padding (bbox d)) 255,
     inpaint_count + 1)
  else (mask, inpaint_count).

Definition build_mask (threshold : Q) (padding : Z) {A}
    (img : list (list A)) (detections : list Detection) : Mask * Z :=
  fold_left (mask_step threshold padding (shape0 img) (shape1 img))
            detections (np_zeros img, 0).

(** The constants of the source. *)
Definition confidence_threshold : Q := 3 # 10.
Definition padding : Z := 5.
Definition inpaintRadius : Z := 7.

(** ** The outside world *)

(** One entry per call that leaves the program. *)
Inductive Event :=
| EvGet (url : string)            (* requests.get *)
| EvReaderInit                    (* easyocr.Reader(['en'], gpu=False) *)
| EvModelDownload                 (* the models it fetches on first use *)
| EvReadtext                      (* ocr_reader.readtext *)
| EvInpaint (radius : Z)          (* cv2.inpaint *)
| EvMakedirs (d : string)         (* os.makedirs *)
| EvImwrite (path : string)       (* cv2.imwrite *)
| EvSendFile (path : string).     (* flask.send_file *)

Record World := mkWorld {
  (* regular files and directories, by path, outside the model directory
     of the OCR engine *)
  files : gmap string (list byte);
  dirs : gset string;
  model_store : bool;                (* that directory holds the models *)
  reader : bool;                     (* the global [reader] is not None *)
  net_calls : nat;                   (* requests issued so far *)
  trace : list Event                 (* oldest first *)
}.

Record Response := mkResponse {
  status_ok : bool;                  (* status below 400 *)
  content : list byte
}.

(** What the libraries answer.  The n-th request may be answered
    differently from the one before; the decoder, the OCR engine and the
    encoder are functions of their input. *)
Record Env := mkEnv {
  PROCESSED_IMAGES_DIR : string;
  requests_get : nat -> string -> Result Response;
  (* Image.open(BytesIO(content)), np.array, cv2.cvtColor(RGB2BGR) *)
  decode_bgr : list byte -> Result Raster;
  easyocr_Reader : Result unit;
  readtext : Raster -> Result (list Detection);
  inpaint_raises : Raster -> Mask -> option Exn;
  inpaint_fill : Raster -> Mask -> Z -> nat -> nat -> Pixel;
  makedirs_raises : string -> option Exn;
  (* the value cv2.imwrite returns, and the bytes it left at the path *)
  imwrite : string -> Raster -> Result (bool * option (list byte))
}.

Definition log (ev : Event) (w : World) : World :=
  {| files := files w; dirs := dirs w; model_store := model_store w;
     reader := reader w;
     net_calls := net_calls w; trace := trace w ++ [ev] |}.

Definition set_reader (w : World) : World :=
  {| files := files w; dirs := dirs w; model_store := model_store w;
     reader := true;
     net_calls := net_calls w; trace := trace w |}.

Definition store_models (w : World) : World :=
  {| files := files w; dirs := dirs w; model_store := true;
     reader := reader w;
     net_calls := net_calls w; trace := trace w |}.

Definition count_request (w : World) : World :=
  {| files := files w; dirs := dirs w; model_store := model_store w;
     reader := reader w;
     net_calls := S (net_calls w); trace := trace w |}.

Definition add_dir (d : string) (w : World) : World :=
  {| files := files w; dirs := {[ d ]} ∪ dirs w;
     model_store := model_store w; reader := reader w;
     net_calls := net_calls w; trace := trace w |}.

Definition put_file (p : string) (b : list byte) (w : World) : World :=
  {| files := <[ p := b ]> (files w); dirs := dirs w;
     model_store := model_store w; reader := reader w;
     net_calls := net_calls w; trace := trace w |}.

(** ** State and exceptions *)

Definition M (A : Type) : Type := World -> World * Result A.

Definition ret {A} (a : A) : M A := fun w => (w, Ok a).
Definition raise {A} (e : Exn) : M A := fun w => (w, Raise e).
Definition bind {A B} (c : M A) (k : A -> M B) : M B :=
  fun w =>
    match c w with
    | (w', Ok a) => k a w'
    | (w', Raise e) => (w', Raise e)
    end.
(** [try: c  except Exception as e: h e]; what [c] did to the world
    before it raised stays done. *)
Definition try_except {A} (c : M A) (h : Exn -> M A) : M A :=
  fun w =>
    match c w with
    | (w', Ok a) => (w', Ok a)
    | (w', Raise e) => h e w'
    end.
Definition lift {A} (r : Result A) : M A := fun w => (w, r).

Notation "'let!' x ':=' c 'in' k" := (bind c (fun x => k))
  (at level 10, x name, c at level 100, k at level 200, only parsing).
Notation "'do!' c 'in' k" := (bind c (fun _ => k))
  (at level 10, c at level 100, k at level 200, only parsing).

(** ** [image_processor.py] *)

Section Pipeline.

Context (env : Env).

(** [requests.get(url, timeout=10)] *)
Definition get (url : string) : M Response :=
  fun w =>
    (count_request (log (EvGet url) w), requests_get env (net_calls w) url).

(** [response.raise_for_status()] *)
Definition raise_for_status (response : Response) : M unit :=
  if status_ok response then ret tt
  else raise (Exception "HTTPError").

(** [Image.open], [np.array] and [cv2.cvtColor] on the body. *)
Definition open_bgr (response : Response) : M Raster :=
  lift (decode_bgr env (content response)).

(** [easyocr.Reader(['en'], gpu=False)]: the constructor fetches the
    models over the network and stores them in its model directory when
    they are not there yet ("will download models on first use"), then
    loads them.  A constructor that raises is taken to leave the
    directory as it found it. *)
Definition easyocr_Reader_call : M unit :=
  fun w =>
    let w1 := log EvReaderInit w in
    let w2 := if model_store w then w1 else log EvModelDownload w1 in
    match easyocr_Reader env with
    | Ok _ => (store_models w2, Ok tt)
    | Raise e => (w2, Raise e)
    end.

(** [get_reader]: the engine is built when the global is still None. *)
Definition get_reader : M unit :=
  fun w =>
    if reader w then (w, Ok tt)
    else
      match easyocr_Reader_call w with
      | (w', Ok _) => (set_reader w', Ok tt)
      | (w', Raise e) => (w', Raise e)
      end.

Definition ocr_readtext (img : Raster) : M (list Detection) :=
  fun w => (log EvReadtext w, readtext env img).

(** Modelled from the spec: [cv2.inpaint] is OpenCV's, not this
    repository's.  Section 4.4: every masked pixel is reconstructed from
    the surrounding texture with the given radius, the output has the
    dimensions of the input, and unmasked pixels pass through unchanged.
    The reconstructed value is the oracle [inpaint_fill]. *)
Definition inpaint_pixels (img : Raster) (mask : Mask) (radius : Z) : Raster :=
  imap (fun y row =>
          imap (fun x p =>
                  match pixel_at mask x y with
                  | Some v =>
                      if v =? 0 then p
                      else inpaint_fill env img mask radius x y
                  | None => p
                  end)
               row)
       img.

(** [cv2.inpaint(img, mask, inpaintRadius=radius, flags=cv2.INPAINT_TELEA)] *)
Definition cv2_inpaint (img : Raster) (mask : Mask) (radius : Z) : M Raster :=
  fun w =>
    (log (EvInpaint radius) w,
     match inpaint_raises env img mask with
     | Some e => Raise e
     | None => Ok (inpaint_pixels img mask radius)
     end).

(** Lines 32-98: the body of the [try]. *)
Definition process_body (image_url : string) : M Raster :=
  let! response := get image_url in
  do! raise_for_status response in
  let! img := open_bgr response in
  let result := img in
  do! get_reader in
  let! detections := ocr_readtext img in
  let! st := lift (mask_loop confidence_threshold padding img detections) in
  let '(mask, inpaint_count) := st in
  if 0 <? inpaint_count then cv2_inpaint img mask inpaintRadius
  else ret result.

(** Lines 103-108: the handler. *)
Definition fetch_original (image_url : string) : M (option Raster) :=
  try_except
    (let! response := get image_url in
     let! img := open_bgr response in
     ret (Some img))
    (fun _ => ret None).

Definition detect_and_blur_text (image_url : string) (blur_strength : Z)
    : M (option Raster) :=
  try_except
    (let! result := process_body image_url in ret (Some result))
    (fun _ => fetch_original image_url).

(** [os.path.exists] *)
Definition os_path_exists (p : string) (w : World) : bool :=
  bool_decide (is_Some (files w !! p)) || bool_decide (p ∈ dirs w).

Definition is_sep (c : ascii) : bool := Ascii.eqb c "/"%char.

Fixpoint drop_while (f : ascii -> bool) (l : list ascii) : list ascii :=
  match l with
  | [] => []
  | c :: l' => if f c then drop_while f l' else l
  end.

(** [os.path.dirname] (posixpath): the part up to the last separator,
    without its trailing separators unless it is made of separators only. *)
Definition os_path_dirname (p : string) : string :=
  let head_rev :=
    drop_while (fun c => negb (is_sep c)) (rev (list_ascii_of_string p)) in
  if forallb is_sep head_rev then string_of_list_ascii (rev head_rev)
  else string_of_list_ascii (rev (drop_while is_sep head_rev)).

(** [os.makedirs(d, exist_ok=True)] *)
Definition os_makedirs (d : string) : M unit :=
  fun w =>
    let w1 := log (EvMakedirs d) w in
    if String.eqb d "" then (w1, Raise (Exception "FileNotFoundError"))
    else if bool_decide (is_Some (files w !! d)) then
      (w1, Raise (Exception "FileExistsError"))
    else
      match makedirs_raises env d with
      | Some e => (w1, Raise e)
      | None => (add_dir d w1, Ok tt)
      end.

(** [cv2.imwrite(output_path, image_array)] *)
Definition cv2_imwrite (output_path : string) (image_array : Raster) : M bool :=
  fun w =>
    let w1 := log (EvImwrite output_path) w in
    match imwrite env output_path image_array with
    | Ok (success, Some b) => (put_file output_path b w1, Ok success)
    | Ok (success, None) => (w1, Ok success)
    | Raise e => (w1, Raise e)
    end.

Definition save_processed_image (image_array : option Raster)
    (output_path : string) : M bool :=
  match image_array with
  | Some image_array =>
      try_except
        (do! os_makedirs (os_path_dirname output_path) in
         let! success := cv2_imwrite output_path image_array in
         if success then
           fun w => if os_path_exists output_path w then (w, Ok true)
                    else (w, Ok false)
         else ret false)
        (fun _ => ret false)
  | None => ret false
  end.

End Pipeline.

(** ** [app.py]: the route [/processed-poster/<poster_id>] *)

(** [session["movie_q"]], as [get_movie_question] fills it. *)
Record MovieQ := mkMovieQ { poster_url : string; poster_id : string }.

(** [session["movie_q"].get("poster_id")], [.get("poster_url")] *)
Definition get_poster_id (movie_q : MovieQ) : string := poster_id movie_q.
Definition get_poster_url (movie_q : MovieQ) : string := poster_url movie_q.

(** The Flask session: [None] when ["movie_q"] is not in it. *)
Definition Session : Type := option MovieQ.

Inductive HttpResponse :=
| SendFile (body : list byte) (mimetype : string)
| Redirect (location : string)
| Body (text : string) (status : Z).

Definition starts_with_sep (s : string) : bool :=
  match s with
  | String c _ => is_sep c
  | EmptyString => false
  end.

Definition ends_with_sep (s : string) : bool :=
  match rev (list_ascii_of_string s) with
  | c :: _ => is_sep c
  | [] => false
  end.

(** [os.path.join(a, b)] (posixpath) *)
Definition os_path_join (a b : string) : string :=
  if starts_with_sep b then b
  else if String.eqb a "" || ends_with_sep a then a +:+ b
  else a +:+ "/" +:+ b.

(** [send_file(path, mimetype=...)] *)
Definition send_file (path mimetype : string) : M HttpResponse :=
  fun w =>
    let w1 := log (EvSendFile path) w in
    match files w !! path with
    | Some b => (w1, Ok (SendFile b mimetype))
    | None => (w1, Raise (Exception "FileNotFoundError"))
    end.

Section App.

Context (env : Env).

Definition processed_path_of (poster_id : string) : string :=
  os_path_join (PROCESSED_IMAGES_DIR env) (poster_id +:+ ".jpg").

Definition get_processed_poster (session : Session) (poster_id : string)
    : M HttpResponse :=
  try_except
    (let processed_path := processed_path_of poster_id in
     fun w =>
       if os_path_exists processed_path w then
         send_file processed_path "image/jpeg" w
       else
         match session with
         | Some movie_q =>
             let session_poster_id := get_poster_id movie_q in
             let original_url := get_poster_url movie_q in
             (if String.eqb session_poster_id poster_id
                 && negb (String.eqb original_url "")
              then
                let! processed_image :=
                  detect_and_blur_text env original_url 51 in
                match processed_image with
                | Some _ =>
                    do! save_processed_image env processed_image
                          processed_path in
                    send_file processed_path "image/jpeg"
                | None => ret (Redirect original_url)
                end
              else ret (Redirect original_url)) w
         | None => (w, Ok (Body "Image not found" 404))
         end)
    (fun _ =>
       match session with
       | Some movie_q => ret (Redirect (poster_url movie_q))
       | None => ret (Body "Error processing image" 500)
       end).

(** A sequence of requests, each with the session of its client. *)
Definition serve (reqs : list (Session * string)) (w : World) : World :=
  fold_left (fun w req => fst (get_processed_poster (fst req) (snd req) w))
            reqs w.

End App.

(** ** [app.py]: the leaderboard *)

(** One entry of [leaderboard.json]: [{"name": ..., "score": ...}]. *)
Record Entry := mkEntry { name : string; score : Z }.

(** What is at [LEADERBOARD_FILE]: nothing, the JSON text of a list of
    entries (given by the list it decodes to), or something [json.load]
    rejects. *)
Inductive JsonFile :=
| Missing
| Holds (leaderboard : list Entry)
| Corrupt.

(** [leaderboard.sort(key=lambda x: x["score"], reverse=True)]: Python's
    sort is stable, also with [reverse=True], and a stable sort has one
    result; it is computed here by insertion.  [x] stood before the
    entries of [sorted], so it goes in front of the first one whose score
    is not above its own. *)
Fixpoint insert_desc (x : Entry) (sorted : list Entry) : list Entry :=
  match sorted with
  | [] => [x]
  | y :: rest =>
      if score x <? score y then y :: insert_desc x rest
      else x :: y :: rest
  end.

Definition sort_by_score_reverse (leaderboard : list Entry) : list Entry :=
  fold_right insert_desc [] leaderboard.

(** [l[:limit]], a negative limit counting from the end. *)
Definition slice_to {A} (l : list A) (limit : Z) : list A :=
  if limit <? 0 then take (Z.to_nat (Z.of_nat (length l) + limit)) l
  else take (Z.to_nat limit) l.

Definition load_leaderboard (file : JsonFile) : Result (list Entry) :=
  match file with
  | Missing => Ok []
  | Holds leaderboard => Ok leaderboard
  | Corrupt => Raise (Exception "JSONDecodeError")
  end.

Definition save_leaderboard (leaderboard : list Entry) : JsonFile :=
  Holds leaderboard.

(** [add_score]: the file afterwards, and whether the call raised. *)
Definition add_score (name : string) (score : Z) (file : JsonFile)
    : JsonFile * Result unit :=
  match load_leaderboard file with
  | Ok leaderboard =>
      let leaderboard := leaderboard ++ [mkEntry name score] in
      let leaderboard := sort_by_score_reverse leaderboard in
      (save_leaderboard leaderboard, Ok tt)
  | Raise e => (file, Raise e)
  end.

Definition get_top_scores (limit : Z) (file : JsonFile)
    : Result (list Entry) :=
  match load_leaderboard file with
  | Ok leaderboard => Ok (slice_to leaderboard limit)
  | Raise e => Raise e
  end.

(** ** [app.py]: drawing a question *)

(** One movie of the TMDB answer; [poster_path] may be null. *)
Record Movie := mkMovie { title : string; poster_path : option string }.

(** The dictionary [get_movie_question] returns; its ["poster_url"] and
    ["poster_id"] are the [MovieQ] the poster route reads. *)
Record MovieQuestion := mkMovieQuestion {
  question_poster : MovieQ;
  options : list string;
  answer_index : nat
}.

(** The service, the random generator and the digest. *)
Record GameEnv := mkGameEnv {
  TMDB_API_KEY : option string;              (* os.environ.get *)
  (* requests.get, raise_for_status, response.json(), data.get("results", []) *)
  tmdb_popular : nat -> Result (list Movie);
  random_draw : nat -> nat;                  (* the n-th number drawn *)
  md5_hexdigest : string -> string
}.

Record GameWorld := mkGameWorld {
  leaderboard_file : JsonFile;
  api_calls : nat;                           (* requests to TMDB so far *)
  draws : nat                                (* random numbers drawn so far *)
}.

Definition TMDB_IMAGE_BASE : string := "https://image.tmdb.org/t/p/w500".

(** [m.get("poster_path")] is truthy. *)
Definition has_poster (m : Movie) : bool :=
  match poster_path m with
  | Some p => negb (String.eqb p "")
  | None => false
  end.

(** [randbelow(n)] on the [k]-th draw. *)
Definition randbelow (genv : GameEnv) (k n : nat) : nat :=
  random_draw genv k mod n.

(** [random.sample(population, k)]: [k] picks without replacement; each
    pick takes position [randbelow] of what is left and the last item
    left moves into the vacancy.  [d] counts the draws. *)
Fixpoint sample_from (genv : GameEnv) (pool : list Movie) (k d : nat)
    : list Movie :=
  match k with
  | O => []
  | S k' =>
      let n := length pool in
      let j := randbelow genv d n in
      match pool !! j, pool !! (n - 1)%nat with
      | Some picked, Some last =>
          picked :: sample_from genv (take (n - 1) (<[ j := last ]> pool))
                      k' (S d)
      | _, _ => []
      end
  end.

(** [options.index(t)]: the first position of [t]. *)
Fixpoint list_index (t : string) (options : list string) : option nat :=
  match options with
  | [] => None
  | o :: rest =>
      if String.eqb o t then Some O
      else match list_index t rest with
           | Some i => Some (S i)
           | None => None
           end
  end.

Definition get_movie_question (genv : GameEnv) (gw : GameWorld)
    : GameWorld * Result MovieQuestion :=
  match TMDB_API_KEY genv with
  | None => (gw, Raise (Exception "RuntimeError"))
  | Some api_key =>
      if String.eqb api_key "" then (gw, Raise (Exception "RuntimeError"))
      else
        let gw1 := {| leaderboard_file := leaderboard_file gw;
                      api_calls := S (api_calls gw); draws := draws gw |} in
        match tmdb_popular genv (api_calls gw) with
        | Raise e => (gw1, Raise e)
        | Ok results =>
            let results := List.filter has_poster results in
            if (length results <? 4)%nat then
              (gw1, Raise (Exception "RuntimeError"))
            else
              let chosen := sample_from genv results 4 (draws gw) in
              let gw2 := {| leaderboard_file := leaderboard_file gw;
                            api_calls := S (api_calls gw);
                            draws := (draws gw + 5)%nat |} in
              match chosen !! randbelow genv (draws gw + 4) (length chosen)
              with
              | None => (gw2, Raise (Exception "IndexError"))
              | Some correct_movie =>
                  let poster_url :=
                    TMDB_IMAGE_BASE +:+ default "" (poster_path correct_movie)
                  in
                  let options := map title chosen in
                  match list_index (title correct_movie) options with
                  | None => (gw2, Raise (Exception "ValueError"))
                  | Some answer_index =>
                      let poster_id := md5_hexdigest genv poster_url in
                      (gw2,
                       Ok {| question_poster :=
                               {| poster_url := poster_url;
                                  poster_id := poster_id |};
                             options := options;
                             answer_index := answer_index |})
                  end
              end
        end
  end.

(** ** [app.py]: the game routes *)

(** The keys of the Flask session the routes use; [None] for a key that
    is not in it. *)
Record GameSession := mkGameSession {
  session_player_name : option string;
  session_score : option Z;
  session_question_count : option Z;
  session_movie_q : option MovieQuestion
}.

(** [session.clear()] *)
Definition session_clear : GameSession :=
  {| session_player_name := None; session_score := None;
     session_question_count := None; session_movie_q := None |}.


Inductive GameResponse :=
| RedirectTo (endpoint : string)       (* redirect(url_for(endpoint)) *)
| RenderWelcome                        (* welcome.html *)
| RenderQuestion (question : MovieQuestion) (player_name : string)
    (score : Z) (question_number : Z)  (* movie_question.html *)
| RenderGameOver (player_name : string) (score : Z)
    (leaderboard : list Entry).        (* game_over.html *)

(** The whitespace of [str.strip()] is the characters [c] with
    [c.isspace()]: U+0009 to U+000D, U+001C to U+0020, U+0085, U+00A0,
    U+1680, U+2000 to U+200A, U+2028, U+2029, U+202F, U+205F and U+3000.
    In UTF-8 they take one byte, two bytes or three. *)
Definition space1 (a : ascii) : bool :=
  let n := nat_of_ascii a in
  ((9 <=? n) && (n <=? 13) || (28 <=? n) && (n <=? 32))%nat.

(** U+0085 is [C2 85], U+00A0 is [C2 A0]. *)
Definition space2 (a b : ascii) : bool :=
  Ascii.eqb a "194" && (Ascii.eqb b "133" || Ascii.eqb b "160").

(** U+1680 is [E1 9A 80]; U+2000 to U+200A are [E2 80 80] to [E2 80 8A],
    U+2028 [E2 80 A8], U+2029 [E2 80 A9], U+202F [E2 80 AF]; U+205F is
    [E2 81 9F]; U+3000 is [E3 80 80]. *)
Definition space3 (a b c : ascii) : bool :=
  let n := nat_of_ascii c in
  Ascii.eqb a "225" && Ascii.eqb b "154" && Ascii.eqb c "128"
  || Ascii.eqb a "226" && Ascii.eqb b "128" &&
     ((128 <=? n) && (n <=? 138) || (n =? 168) || (n =? 169)
      || (n =? 175))%nat
  || Ascii.eqb a "226" && Ascii.eqb b "129" && Ascii.eqb c "159"
  || Ascii.eqb a "227" && Ascii.eqb b "128" && Ascii.eqb c "128".

Section Whitespace.

(** The whitespace characters of one, two and three bytes, as they are
    met when the bytes are read in one direction. *)
Variable s1 : ascii -> bool.
Variable s2 : ascii -> ascii -> bool.
Variable s3 : ascii -> ascii -> ascii -> bool.

(** The bytes without the whitespace characters they begin with. *)
Fixpoint drop_spaces (l : list ascii) : list ascii :=
  match l with
  | [] => []
  | a :: l1 =>
      if s1 a then drop_spaces l1
      else match l1 with
           | [] => l
           | b :: l2 =>
               if s2 a b then drop_spaces l2
               else match l2 with
                    | [] => l
                    | c :: l3 => if s3 a b c then drop_spaces l3 else l
                    end
           end
  end.

End Whitespace.

(** [s.lstrip()], on the bytes of [s]. *)
Definition lstrip_bytes : list ascii -> list ascii :=
  drop_spaces space1 space2 space3.

(** [s.rstrip()], on the bytes of [s] in reverse: the bytes of a
    character come last byte first. *)
Definition rstrip_reversed : list ascii -> list ascii :=
  drop_spaces space1 (fun b a => space2 a b) (fun c b a => space3 a b c).

(** [s.strip()]: the whitespace characters are removed at the start, then
    at the end. *)
Definition strip (s : string) : string :=
  string_of_list_ascii
    (rev (rstrip_reversed (rev (lstrip_bytes (list_ascii_of_string s))))).

(** A view: the session and the world it leaves, and what it returns. *)
Definition View : Type :=
  GameSession -> GameWorld -> GameSession * GameWorld * Result GameResponse.

Definition home : View :=
  fun session gw => (session, gw, Ok RenderWelcome).

(** [form_player_name] is [request.form.get("player_name")]. *)
Definition start_game (form_player_name : option string) : View :=
  fun session gw =>
    let player_name := strip (default "" form_player_name) in
    if String.eqb player_name "" then (session, gw, Ok (RedirectTo "home"))
    else
      ({| session_player_name := Some player_name;
          session_score := Some 0;
          session_question_count := Some 0;
          session_movie_q := None |},
       gw, Ok (RedirectTo "movie_question")).

Definition set_movie_q (q : MovieQuestion) (session : GameSession)
    : GameSession :=
  {| session_player_name := session_player_name session;
     session_score := session_score session;
     session_question_count := session_question_count session;
     session_movie_q := Some q |}.

(** The [render_template] call of [movie_question]: [session["score"]]
    and [session["question_count"]] raise when the key is missing. *)
Definition render_question (q : MovieQuestion) (player_name : string)
    (session : GameSession) : Result GameResponse :=
  match session_score session, session_question_count session with
  | Some score, Some question_count =>
      Ok (RenderQuestion q player_name score (question_count + 1))
  | _, _ => Raise (Exception "KeyError")
  end.

Definition movie_question (genv : GameEnv) : View :=
  fun session gw =>
    match session_player_name session with
    | None => (session, gw, Ok (RedirectTo "home"))
    | Some player_name =>
        if 10 <=? default 0 (session_question_count session) then
          (session, gw, Ok (RedirectTo "game_over"))
        else
          match session_movie_q session with
          | Some q => (session, gw, render_question q player_name session)
          | None =>
              match get_movie_question genv gw with
              | (gw', Ok q) =>
                  let session' := set_movie_q q session in
                  (session', gw', render_question q player_name session')
              | (gw', Raise e) => (session, gw', Raise e)
              end
          end
    end.

Definition check_answer : View :=
  fun session gw => (session, gw, Ok (RedirectTo "movie_question")).

(** [arg_correct] is [request.args.get("correct")]. *)
Definition next_question (arg_correct : option string) : View :=
  fun session gw =>
    match session_player_name session with
    | None => (session, gw, Ok (RedirectTo "home"))
    | Some player_name =>
        let is_correct :=
          match arg_correct with
          | Some v => String.eqb v "true"
          | None => false
          end in
        let score :=
          if is_correct then Some (default 0 (session_score session) + 10)
          else session_score session in
        let question_count :=
          default 0 (session_question_count session) + 1 in
        ({| session_player_name := Some player_name;
            session_score := score;
            session_question_count := Some question_count;
            session_movie_q := None |},
         gw,
         Ok (RedirectTo (if 10 <=? question_count then "game_over"
                         else "movie_question")))
    end.

Definition game_over : View :=
  fun session gw =>
    match session_player_name session with
    | None => (session, gw, Ok (RedirectTo "home"))
    | Some player_name =>
        let score := default 0 (session_score session) in
        match add_score player_name score (leaderboard_file gw) with
        | (file, Raise e) =>
            (session,
             {| leaderboard_file := file; api_calls := api_calls gw;
                draws := draws gw |}, Raise e)
        | (file, Ok _) =>
            let gw' := {| leaderboard_file := file;
                          api_calls := api_calls gw; draws := draws gw |} in
            match get_top_scores 5 file with
            | Ok leaderboard =>
                (session, gw',
                 Ok (RenderGameOver player_name score leaderboard))
            | Raise e => (session, gw', Raise e)
            end
        end
    end.

Definition play_again : View :=
  fun session gw =>
    match session_player_name session with
    | None => (session, gw, Ok (RedirectTo "home"))
    | Some player_name =>
        ({| session_player_name := Some player_name;
            session_score := Some 0;
            session_question_count := Some 0;
            session_movie_q := None |},
         gw, Ok (RedirectTo "movie_question"))
    end.

(** A request to one of the game routes. *)
Inductive GameRequest :=
| GetHome
| PostStartGame (form_player_name : option string)
| GetMovieQuestion
| PostCheckAnswer
| GetNextQuestion (arg_correct : option string)
| GetGameOver
| GetPlayAgain.

Definition dispatch (genv : GameEnv) (req : GameRequest) : View :=
  match req with
  | GetHome => home
  | PostStartGame form_player_name => start_game form_player_name
  | GetMovieQuestion => movie_question genv
  | PostCheckAnswer => check_answer
  | GetNextQuestion arg_correct => next_question arg_correct
  | GetGameOver => game_over
  | GetPlayAgain => play_again
  end.

(** One client's requests, one after the other. *)
Definition play (genv : GameEnv) (reqs : list GameRequest)
    (session : GameSession) (gw : GameWorld) : GameSession * GameWorld :=
  fold_left (fun st req => fst (dispatch genv req (fst st) (snd st)))
            reqs (session, gw).

(** Calls of [detect_and_blur_text], one after the other. *)
Definition detect_all (env : Env) (urls : list string) (w : World) : World :=
  fold_left (fun w url => fst (detect_and_blur_text env url 25 w)) urls w.

(** * Observations *)

(** ** On masks and regions *)

(** The pixel at [(x, y)] of the mask is set. *)
Definition nonzero_at (mask : Mask) (x y : nat) : Prop :=
  exists v, pixel_at mask x y = Some v /\ v <> 0.



(** Some accepted detection of [dets] has [(x, y)] in what
    [cv2.rectangle] fills for its region. *)
Definition painted_by (threshold : Q) (pad h w : Z) (dets : list Detection)
    (x y : nat) : Prop :=
  exists d, In d dets /\ accepted threshold d = true /\
            in_footprint (region_of h w pad (bbox d)) (Z.of_nat x) (Z.of_nat y).

(** A region whose corners are in order and lie in [[0,w) x [0,h)]. *)
Definition within_half_open (h w : Z) (r : Region) : Prop :=
  0 <= x_min r /\ x_min r <= x_max r /\ x_max r < w /\
  0 <= y_min r /\ y_min r <= y_max r /\ y_max r < h.

(** ** On traces *)

Definition is_inpaint (ev : Event) : bool :=
  match ev with EvInpaint _ => true | _ => false end.
Definition is_get (ev : Event) : bool :=
  match ev with EvGet _ => true | _ => false end.
Definition is_ocr (ev : Event) : bool :=
  match ev with EvReaderInit | EvReadtext => true | _ => false end.
Definition is_write (ev : Event) : bool :=
  match ev with EvMakedirs _ | EvImwrite _ => true | _ => false end.

(** How many of the logged calls satisfy [f]. *)
Definition calls (f : Event -> bool) (w : World) : nat :=
  length (List.filter f (trace w)).

(** ** On the two passes of [detect_and_blur_text] *)

Definition is_ok {A} (r : Result A) : bool :=
  match r with Ok _ => true | Raise _ => false end.

(** What [get_reader] logs: nothing, or the construction of the engine
    with the download of the models when they are not stored. *)
Definition reader_events (init stored : bool) : list Event :=
  if init then EvReaderInit :: (if stored then [] else [EvModelDownload])
  else [].

(** What follows in the first pass: nothing, the detection, or the
    detection and the inpainting. *)
Definition tail_events (rest : list Event) : Prop :=
  rest = [] \/ rest = [EvReadtext] \/
  rest = [EvReadtext; EvInpaint inpaintRadius].

(** What the second request yields: the undecorated raster, when the
    request is answered and its body decodes. *)
Definition refetched (env : Env) (url : string) (w : World)
    : option Raster :=
  match requests_get env (S (net_calls w)) url with
  | Ok response =>
      match decode_bgr env (content response) with
      | Ok img => Some img
      | Raise _ => None
      end
  | Raise _ => None
  end.

(** The stage of the first pass that fails, in world [w]: the fetch (the
    request or its status), the decoding, the detection (the engine or
    its answer), the mask or the inpainting. *)
Inductive StageFailure (env : Env) (url : string) (w : World) : Prop :=
| FetchFails e :
    requests_get env (net_calls w) url = Raise e ->
    StageFailure env url w
| StatusFails response :
    requests_get env (net_calls w) url = Ok response ->
    status_ok response = false ->
    StageFailure env url w
| DecodeFails response e :
    requests_get env (net_calls w) url = Ok response ->
    status_ok response = true ->
    decode_bgr env (content response) = Raise e ->
    StageFailure env url w
| ReaderFails response img e :
    requests_get env (net_calls w) url = Ok response ->
    status_ok response = true ->
    decode_bgr env (content response) = Ok img ->
    reader w = false ->
    easyocr_Reader env = Raise e ->
    StageFailure env url w
| DetectFails response img e :
    requests_get env (net_calls w) url = Ok response ->
    status_ok response = true ->
    decode_bgr env (content response) = Ok img ->
    (reader w = true \/ exists u, easyocr_Reader env = Ok u) ->
    readtext env img = Raise e ->
    StageFailure env url w
| MaskFails response img detections e :
    requests_get env (net_calls w) url = Ok response ->
    status_ok response = true ->
    decode_bgr env (content response) = Ok img ->
    (reader w = true \/ exists u, easyocr_Reader env = Ok u) ->
    readtext env img = Ok detections ->
    mask_loop confidence_threshold padding img detections = Raise e ->
    StageFailure env url w
| InpaintFails response img detections mask inpaint_count e :
    requests_get env (net_calls w) url = Ok response ->
    status_ok response = true ->
    decode_bgr env (content response) = Ok img ->
    (reader w = true \/ exists u, easyocr_Reader env = Ok u) ->
    readtext env img = Ok detections ->
    mask_loop confidence_threshold padding img detections =
      Ok (mask, inpaint_count) ->
    0 < inpaint_count ->
    inpaint_raises env img mask = Some e ->
    StageFailure env url w.

(** ** On the code beyond the pipeline *)

Definition is_reader_init (ev : Event) : bool :=
  match ev with EvReaderInit => true | _ => false end.
Definition is_download (ev : Event) : bool :=
  match ev with EvModelDownload => true | _ => false end.

(** No separator in the path. *)
Definition no_sep (p : string) : Prop :=
  forallb (fun c => negb (is_sep c)) (list_ascii_of_string p) = true.

(** [cv2.imwrite] never leaves anything at [path]. *)
Definition imwrite_leaves_nothing (env : Env) (path : string) : Prop :=
  forall img, match imwrite env path img with
              | Ok (_, Some _) => False
              | _ => True
              end.

(** Highest score first. *)
Definition descending (l : list Entry) : Prop :=
  StronglySorted (fun a b => score b <= score a) l.

(** A session of a game that was started: a name that is not empty, a
    score that is a multiple of 10 between 0 and ten times the number of
    questions answered. *)
Definition session_ok (session : GameSession) : Prop :=
  match session_player_name session with
  | None => True
  | Some player_name =>
      player_name <> "" /\
      exists score question_count,
        session_score session = Some score /\
        session_question_count session = Some question_count /\
        0 <= score <= 10 * question_count /\
        (10 | score)
  end.

Section WhitespaceTests.

Variable s1 : ascii -> bool.
Variable s2 : ascii -> ascii -> bool.
Variable s3 : ascii -> ascii -> ascii -> bool.

(** The bytes begin with a whitespace character. *)
Definition at_space (l : list ascii) : bool :=
  match l with
  | [] => false
  | a :: l1 =>
      s1 a ||
      match l1 with
      | [] => false
      | b :: l2 =>
          s2 a b || match l2 with [] => false | c :: _ => s3 a b c end
      end
  end.

(** The bytes are whitespace characters and nothing else. *)
Fixpoint all_spaces (l : list ascii) : bool :=
  match l with
  | [] => true
  | a :: l1 =>
      if s1 a then all_spaces l1
      else match l1 with
           | [] => false
           | b :: l2 =>
               if s2 a b then all_spaces l2
               else match l2 with
                    | [] => false
                    | c :: l3 => s3 a b c && all_spaces l3
                    end
           end
  end.

End WhitespaceTests.

(** The string is made of whitespace only (it may be empty). *)
Definition whitespace_only (l : list ascii) : bool :=
  all_spaces space1 space2 space3 l.

(** The first character of the string is whitespace. *)
Definition starts_with_space (s : string) : bool :=
  at_space space1 space2 space3 (list_ascii_of_string s).

(** The last character of the string is whitespace. *)
Definition ends_with_space (s : string) : bool :=
  at_space space1 (fun b a => space2 a b) (fun c b a => space3 a b c)
    (rev (list_ascii_of_string s)).

(** * Sample data *)

(** The quadrilateral of an upright box with corners [(xa, ya)] and
    [(xb, yb)], in the order EasyOCR lists them. *)
Definition quad_of (xa ya xb yb : Z) : Quad :=
  {| p1 := (inject_Z xa, inject_Z ya); p2 := (inject_Z xb, inject_Z ya);
     p3 := (inject_Z xb, inject_Z yb); p4 := (inject_Z xa, inject_Z yb) |}.

(** On a 100 x 100 poster: a box close to the right and bottom edges, and
    a box that lies to the left of the poster. *)
Definition quad_near_edge : Quad := quad_of 60 90 98 97.
Definition quad_off_left : Quad := quad_of (-40) 90 (-20) 97.


Definition far_left : Detection :=
  {| bbox := quad_of (-3000000000) 1 (-2999999990) 2; text := "B";
     confidence := 9 # 10 |}.

(** Two overlapping title boxes and a faint one on an 8 x 6 poster. *)
Definition poster_8x6 : Raster := replicate 6 (replicate 8 (10, 20, 30)).

Definition title_a : Detection :=
  {| bbox := quad_of 1 1 3 2; text := "THE"; confidence := 82 # 100 |}.
Definition title_b : Detection :=
  {| bbox := quad_of 2 2 4 3; text := "FILM"; confidence := 55 # 100 |}.
Definition faint : Detection :=
  {| bbox := quad_of 6 4 7 5; text := "tm"; confidence := 3 # 10 |}.

Definition mask_titles : Mask :=
  fst (build_mask confidence_threshold 0 poster_8x6 [title_a; title_b]).

(** A 20 x 14 poster with one small title in the middle. *)
Definition poster_20x14 : Raster := replicate 14 (replicate 20 (10, 20, 30)).
Definition title_mid : Detection :=
  {| bbox := quad_of 9 6 10 7; text := "X"; confidence := 9 # 10 |}.

Definition poster_url0 : string :=
  "https://image.tmdb.org/t/p/w500/abc.jpg".

Definition world0 : World :=
  {| files := ∅; dirs := {[ "/app/static/processed_images" ]};
     model_store := false; reader := false; net_calls := 0; trace := [] |}.

(** A server that answers nothing: every request times out. *)
Definition env_offline : Env :=
  {| PROCESSED_IMAGES_DIR := "/app/static/processed_images";
     requests_get := fun _ _ => Raise (Exception "ConnectTimeout");
     decode_bgr := fun _ => Raise (Exception "UnidentifiedImageError");
     easyocr_Reader := Ok tt;
     readtext := fun _ => Ok [];
     inpaint_raises := fun _ _ => None;
     inpaint_fill := fun _ _ _ _ _ => (0, 0, 0);
     makedirs_raises := fun _ => None;
     imwrite := fun _ _ => Ok (false, None) |}.

(** A server that answers every request with the same poster, and an OCR
    engine that is given by its answer. *)
Definition poster_bytes : list byte := [x42; x4d; x08; x06]%byte.

Definition env_with (poster : Raster)
    (ocr : Raster -> Result (list Detection)) : Env :=
  {| PROCESSED_IMAGES_DIR := "/app/static/processed_images";
     requests_get := fun _ _ =>
       Ok {| status_ok := true; content := poster_bytes |};
     decode_bgr := fun _ => Ok poster;
     easyocr_Reader := Ok tt;
     readtext := ocr;
     inpaint_raises := fun _ _ => None;
     inpaint_fill := fun _ _ _ _ _ => (128, 128, 128);
     makedirs_raises := fun _ => None;
     imwrite := fun _ _ => Ok (true, Some [xff; xd8; xff; xd9]%byte) |}.

Definition env_ocr_broken : Env :=
  env_with poster_8x6 (fun _ => Raise (Exception "RuntimeError")).
Definition env_no_text : Env := env_with poster_8x6 (fun _ => Ok [faint]).
Definition env_titles : Env :=
  env_with poster_8x6 (fun _ => Ok [title_a; faint; title_b]).
Definition env_title_mid : Env :=
  env_with poster_20x14 (fun _ => Ok [title_mid]).

(** A cache that holds one entry, and sessions for two posters. *)
Definition cached_path : string :=
  "/app/static/processed_images/0cc175b9c0f1b6a8.jpg".

Definition world_cached : World :=
  {| files := {[ cached_path := [xff; xd8; x00; xff; xd9]%byte ]};
     dirs := {[ "/app/static/processed_images" ]};
     model_store := false; reader := false; net_calls := 0; trace := [] |}.

Definition session0 : Session :=
  Some {| poster_url := poster_url0; poster_id := "0cc175b9c0f1b6a8" |}.

Definition session_other : Session :=
  Some {| poster_url := poster_url0; poster_id := "92eb5ffee6ae2fec" |}.

Definition requests0 : list (Session * string) :=
  [ (session_other, "92eb5ffee6ae2fec");
    (session0, "0cc175b9c0f1b6a8");
    (None, "92eb5ffee6ae2fec");
    (session_other, "0cc175b9c0f1b6a8") ].

(** A server that answers every request with status 404 and a
    placeholder image as body. *)
Definition env_error_page : Env :=
  {| PROCESSED_IMAGES_DIR := "/app/static/processed_images";
     requests_get := fun _ _ =>
       Ok {| status_ok := false; content := poster_bytes |};
     decode_bgr := fun _ => Ok poster_8x6;
     easyocr_Reader := Ok tt;
     readtext := fun _ => Ok [];
     inpaint_raises := fun _ _ => None;
     inpaint_fill := fun _ _ _ _ _ => (0, 0, 0);
     makedirs_raises := fun _ => None;
     imwrite := fun _ _ => Ok (true, Some [xff; xd8; xff; xd9]%byte) |}.

(** A disk that is full: [cv2.imwrite] fails and leaves nothing. *)
Definition env_disk_full : Env :=
  {| PROCESSED_IMAGES_DIR := "/app/static/processed_images";
     requests_get := fun _ _ =>
       Ok {| status_ok := true; content := poster_bytes |};
     decode_bgr := fun _ => Ok poster_8x6;
     easyocr_Reader := Ok tt;
     readtext := fun _ => Ok [title_a];
     inpaint_raises := fun _ _ => None;
     inpaint_fill := fun _ _ _ _ _ => (128, 128, 128);
     makedirs_raises := fun _ => None;
     imwrite := fun _ _ => Ok (false, None) |}.

Definition other_path : string :=
  "/app/static/processed_images/92eb5ffee6ae2fec.jpg".

Definition movie_q_other : MovieQ :=
  {| poster_url := poster_url0; poster_id := "92eb5ffee6ae2fec" |}.

(** A leaderboard with a tie, and a player at the end of a game. *)
Definition board0 : list Entry :=
  [ {| name := "Ann"; score := 90 |}; {| name := "Bob"; score := 70 |};
    {| name := "Cy"; score := 70 |}; {| name := "Dee"; score := 20 |} ].

Definition gw0 : GameWorld :=
  {| leaderboard_file := Holds board0; api_calls := 0; draws := 0 |}.

Definition gw_corrupt : GameWorld :=
  {| leaderboard_file := Corrupt; api_calls := 0; draws := 0 |}.

Definition session_eve : GameSession :=
  {| session_player_name := Some "Eve"; session_score := Some 70;
     session_question_count := Some 10; session_movie_q := None |}.

(** A TMDB answer of six movies, one of them without poster; random
    numbers 7, 8, 9, ...; a digest that is the same for every url. *)
Definition movies0 : list Movie :=
  [ {| title := "Alien"; poster_path := Some "/a.jpg" |};
    {| title := "Brazil"; poster_path := Some "/b.jpg" |};
    {| title := "Casablanca"; poster_path := None |};
    {| title := "Dune"; poster_path := Some "/d.jpg" |};
    {| title := "Eraserhead"; poster_path := Some "/e.jpg" |};
    {| title := "Fargo"; poster_path := Some "/f.jpg" |} ].

Definition genv0 : GameEnv :=
  {| TMDB_API_KEY := Some "k3y";
     tmdb_popular := fun _ => Ok movies0;
     random_draw := fun n => (n + 7)%nat;
     md5_hexdigest := fun _ => "92eb5ffee6ae2fec" |}.

Definition session_started : GameSession :=
  {| session_player_name := Some "Eve"; session_score := Some 0;
     session_question_count := Some 0; session_movie_q := None |}.

(** The name [Ann] between an ideographic space, U+3000, and a no-break
    space, U+00A0; a name of an em space, U+2003, and a tab. *)
Definition name_wide_padded : string :=
  string_of_list_ascii
    ["227"; "128"; "128"; "A"; "n"; "n"; "194"; "160"]%char.
Definition name_wide_blank : string :=
  string_of_list_ascii ["226"; "128"; "131"; "009"]%char.

(** * Proof steps *)

Ltac unfold_pipeline :=
  unfold detect_and_blur_text, fetch_original, process_body, try_except,
    bind, ret, raise, lift, get, raise_for_status, open_bgr, get_reader,
    easyocr_Reader_call, ocr_readtext, cv2_inpaint in *.

Ltac unfold_save :=
  unfold save_processed_image, os_makedirs, cv2_imwrite, try_except, bind,
    ret, raise in *.

(** Case analysis on the scrutinees of the goal, innermost first, with
    [unf] run before each. *)
Ltac case_with unf :=
  repeat (unf; simpl;
          match goal with
          | |- context [match ?x with _ => _ end] =>
              lazymatch x with
              | context [match _ with _ => _ end] => fail
              | _ => destruct x eqn:?
              end
          end).

Ltac case_matches := case_with ltac:(unfold_pipeline).

Ltac case_save := case_with ltac:(unfold_save).

(** Closes a case of the lemma on the world the first pass leaves, given
    what [get_reader] did and the events that followed. *)
Ltac world_leaf i r :=
  solve [ exists i, r; simpl; rewrite ?orb_false_r, <- ?app_assoc; simpl;
          repeat split; auto; try discriminate; try congruence ].

Ltac count_calls :=
  unfold calls, log, count_request, set_reader, store_models; simpl;
  rewrite ?List.filter_app, ?length_app; simpl;
  first [reflexivity | lia].

(** * Properties *)

(** ** Regions (lines 71-82) *)

Lemma shape0_nonneg {A} (img : list (list A)) : 0 <= shape0 img.
Proof. unfold shape0. lia. Qed.

Lemma shape1_nonneg {A} (img : list (list A)) : 0 <= shape1 img.
Proof. unfold shape1. lia. Qed.

Lemma np_min_le_np_max_column0 (b : Quad) :
  np_min (column0 b) <= np_max (column0 b).
Proof. unfold column0; simpl. lia. Qed.

Lemma np_min_le_np_max_column1 (b : Quad) :
  np_min (column1 b) <= np_max (column1 b).
Proof. unfold column1; simpl. lia. Qed.

Example region_near_edge :
  region_of 100 100 padding quad_near_edge =
  {| x_min := 55; y_min := 85; x_max := 100; y_max := 100 |}.
Proof. reflexivity. Qed.

Example region_off_left :
  region_of 100 100 padding quad_off_left =
  {| x_min := 0; y_min := 85; x_max := -15; y_max := 100 |}.
Proof. reflexivity. Qed.

(** C3, as stated, fails: for a box off the left edge whose lower side is
    near the bottom of a 100 x 100 image the region is
    [(0,85)-(-15,100)]: [x_max < x_min], and [y_max] is the height, which
    is not below the height. *)
Lemma C3_region_not_half_open :
  ~ within_half_open 100 100 (region_of 100 100 padding quad_off_left).
Proof.
  unfold within_half_open. rewrite region_off_left. simpl. lia.
Qed.

(** C3, amended: for every quadrilateral and every image, the region has
    [0 <= x_min], [x_max <= width], [0 <= y_min], [y_max <= height] (the
    upper bounds are reached), and its corners are in order,
    [x_min <= x_max], exactly when the integer bounding box of the
    quadrilateral comes within the padding of the image on that axis
    (likewise for y). *)
Theorem C3_region_clamped {A} (img : list (list A)) (b : Quad) :
  let r := region_of (shape0 img) (shape1 img) padding b in
  (0 <= x_min r /\ x_max r <= shape1 img /\
   0 <= y_min r /\ y_max r <= shape0 img) /\
  (x_min r <= x_max r <->
     - padding <= np_max (column0 b) /\
     np_min (column0 b) <= shape1 img + padding) /\
  (y_min r <= y_max r <->
     - padding <= np_max (column1 b) /\
     np_min (column1 b) <= shape0 img + padding).
Proof.
  pose proof (shape0_nonneg img) as H0.
  pose proof (shape1_nonneg img) as H1.
  pose proof (np_min_le_np_max_column0 b) as Hx.
  pose proof (np_min_le_np_max_column1 b) as Hy.
  unfold region_of, padding in *; cbn [x_min x_max y_min y_max].
  repeat split; lia.
Qed.

(** ** The mask (lines 49 and 63-87) *)

Lemma in_footprintb_spec (r : Region) (x y : Z) :
  in_footprintb r x y = true <-> in_footprint r x y.
Proof.
  unfold in_footprintb, in_footprint.
  rewrite !andb_true_iff, !Z.leb_le. tauto.
Qed.

Lemma pixel_at_paint_rectangle (mask : Mask) (r : Region) (color : Z)
    (x y : nat) :
  pixel_at (paint_rectangle mask r color) x y =
  (fun v => if in_footprintb r (Z.of_nat x) (Z.of_nat y) then color else v)
    <$> pixel_at mask x y.
Proof.
  unfold pixel_at, paint_rectangle.
  rewrite list_lookup_imap.
  destruct (mask !! y) as [row|]; cbn; [|reflexivity].
  now rewrite list_lookup_imap.
Qed.

Lemma pixel_at_np_zeros {A} (img : list (list A)) (x y : nat) :
  pixel_at (np_zeros img) x y =
  if decide (Z.of_nat x < shape1 img /\ Z.of_nat y < shape0 img)
  then Some 0 else None.
Proof.
  unfold pixel_at, np_zeros, shape0, shape1.
  destruct (decide (y < length img)%nat) as [Hy|Hy].
  - rewrite lookup_replicate_2 by assumption. simpl.
    destruct (decide (x < length (hd [] img))%nat) as [Hx|Hx].
    + rewrite lookup_replicate_2 by assumption.
      rewrite decide_True by lia. reflexivity.
    + rewrite decide_False by lia.
      apply lookup_replicate_None. lia.
  - rewrite decide_False by lia.
    rewrite (proj1 (lookup_replicate_None _ _ _)) by lia. reflexivity.
Qed.

Lemma nonzero_at_paint_rectangle (mask : Mask) (r : Region) (x y : nat) :
  nonzero_at (paint_rectangle mask r 255) x y <->
  nonzero_at mask x y \/
  (is_Some (pixel_at mask x y) /\ in_footprint r (Z.of_nat x) (Z.of_nat y)).
Proof.
  unfold nonzero_at. rewrite pixel_at_paint_rectangle.
  rewrite <- in_footprintb_spec.
  destruct (pixel_at mask x y) as [v0|]; simpl.
  - destruct (in_footprintb r (Z.of_nat x) (Z.of_nat y)); split.
    + intros _. right. split; [eexists|]; reflexivity.
    + intros _. exists 255. split; [reflexivity | lia].
    + intros (v & [= <-] & Hv). left. eauto.
    + intros [(v & [= <-] & Hv) | [_ [=]]]. eauto.
  - split.
    + intros (v & [=] & _).
    + intros [(v & [=] & _) | [[v [=]] _]].
Qed.

Lemma is_Some_pixel_at_paint_rectangle (mask : Mask) (r : Region) (color : Z)
    (x y : nat) :
  is_Some (pixel_at (paint_rectangle mask r color) x y) <->
  is_Some (pixel_at mask x y).
Proof.
  rewrite pixel_at_paint_rectangle. apply fmap_is_Some.
Qed.

Section MaskLoop.

Context (threshold : Q) (pad h w : Z).

Local Abbreviation step := (mask_step threshold pad h w).

Lemma loop_keeps_positions (dets : list Detection) (mask : Mask) (n : Z)
    (x y : nat) :
  is_Some (pixel_at (fst (fold_left step dets (mask, n))) x y) <->
  is_Some (pixel_at mask x y).
Proof.
  revert mask n. induction dets as [|d dets IH]; intros mask n; simpl.
  - reflexivity.
  - destruct (accepted threshold d); rewrite IH.
    + apply is_Some_pixel_at_paint_rectangle.
    + reflexivity.
Qed.

Lemma loop_mask (dets : list Detection) (mask : Mask) (n : Z) (x y : nat) :
  nonzero_at (fst (fold_left step dets (mask, n))) x y <->
  nonzero_at mask x y \/
  (is_Some (pixel_at mask x y) /\ painted_by threshold pad h w dets x y).
Proof.
  revert mask n. induction dets as [|d dets IH]; intros mask n; simpl.
  - split; [auto|]. intros [H | [_ (d & [] & _)]]. exact H.
  - destruct (accepted threshold d) eqn:Hacc; rewrite IH.
    + rewrite nonzero_at_paint_rectangle, is_Some_pixel_at_paint_rectangle.
      split.
      * intros [[H | [Hs Hin]] | [Hs (d' & Hd' & Ha & Hi)]].
        -- now left.
        -- right. split; [exact Hs|]. exists d. simpl. auto.
        -- right. split; [exact Hs|]. exists d'. simpl. auto.
      * intros [H | [Hs (d' & [<- | Hd'] & Ha & Hi)]].
        -- left. now left.
        -- left. right. auto.
        -- right. split; [exact Hs|]. exists d'. auto.
    + split.
      * intros [H | [Hs (d' & Hd' & Ha & Hi)]]; [now left|].
        right. split; [exact Hs|]. exists d'. simpl. auto.
      * intros [H | [Hs (d' & [<- | Hd'] & Ha & Hi)]]; [now left| |].
        -- congruence.
        -- right. split; [exact Hs|]. exists d'. auto.
Qed.

Lemma loop_count (dets : list Detection) (mask : Mask) (n : Z) :
  snd (fold_left step dets (mask, n)) =
  n + Z.of_nat (length (List.filter (accepted threshold) dets)).
Proof.
  revert mask n. induction dets as [|d dets IH]; intros mask n; simpl.
  - lia.
  - destruct (accepted threshold d); rewrite IH; simpl length; lia.
Qed.

Lemma loop_filter (dets : list Detection) (st : Mask * Z) :
  fold_left step dets st =
  fold_left step (List.filter (accepted threshold) dets) st.
Proof.
  revert st. induction dets as [|d dets IH]; intros [mask n]; simpl.
  - reflexivity.
  - destruct (accepted threshold d) eqn:Hacc; simpl.
    + rewrite Hacc. apply IH.
    + apply IH.
Qed.

End MaskLoop.

(** The loop of the source returns what [build_mask] computes, unless an
    accepted detection has a corner [cv2.rectangle] cannot read: then it
    raises. *)
Lemma loop_from_eq (t : Q) (pad h w : Z) (dets : list Detection)
    (st : Mask * Z) :
  loop_from t pad h w dets st =
  if forallb (fun d => corners_parse (region_of h w pad (bbox d)))
             (List.filter (accepted t) dets)
  then Ok (fold_left (mask_step t pad h w) dets st)
  else Raise (Exception "cv2.error").
Proof.
  revert st. induction dets as [|d dets IH]; intros [mask n]; simpl;
    [reflexivity|].
  destruct (accepted t d); simpl; [|apply IH].
  unfold cv2_rectangle.
  destruct (corners_parse (region_of h w pad (bbox d))); simpl;
    [apply IH | reflexivity].
Qed.

Lemma mask_loop_eq {A} (t : Q) (pad : Z) (img : list (list A))
    (dets : list Detection) :
  mask_loop t pad img dets =
  if forallb (fun d => corners_parse
                         (region_of (shape0 img) (shape1 img) pad (bbox d)))
             (List.filter (accepted t) dets)
  then Ok (build_mask t pad img dets)
  else Raise (Exception "cv2.error").
Proof. apply loop_from_eq. Qed.

Lemma mask_loop_returns {A} (t : Q) (pad : Z) (img : list (list A))
    (dets : list Detection) (r : Mask * Z) :
  mask_loop t pad img dets = Ok r -> r = build_mask t pad img dets.
Proof.
  rewrite mask_loop_eq. destruct (forallb _ _); [|discriminate].
  now intros [= <-].
Qed.

Lemma accepted_iff (t : Q) (d : Detection) :
  accepted t d = true <-> (t < confidence d)%Q.
Proof.
  unfold accepted. rewrite (Qgt_alt (confidence d) t).
  destruct (confidence d ?= t)%Q; simpl; split; congruence.
Qed.

Lemma rejected_iff (t : Q) (d : Detection) :
  accepted t d = false <-> (confidence d <= t)%Q.
Proof.
  rewrite <- not_true_iff_false, accepted_iff. split.
  - apply Qnot_lt_le.
  - apply Qle_not_lt.
Qed.

Lemma accepted_antitone (t t' : Q) (d : Detection) :
  (t <= t')%Q -> accepted t' d = true -> accepted t d = true.
Proof.
  rewrite !accepted_iff. intros Ht Hd. eapply Qle_lt_trans; eassumption.
Qed.

Lemma filter_accepted_sublist (t t' : Q) (dets : list Detection) :
  (t <= t')%Q ->
  sublist (List.filter (accepted t') dets) (List.filter (accepted t) dets).
Proof.
  intros Ht. induction dets as [|d dets IH]; simpl.
  - constructor.
  - destruct (accepted t' d) eqn:H'.
    + rewrite (accepted_antitone t t' d Ht H'). now constructor.
    + destruct (accepted t d); [constructor|]; exact IH.
Qed.

Example build_mask_overlap :
  build_mask confidence_threshold 0 poster_8x6 [title_a; faint; title_b] =
  ([ [0; 0;   0;   0;   0;   0; 0; 0];
     [0; 255; 255; 255; 0;   0; 0; 0];
     [0; 255; 255; 255; 255; 0; 0; 0];
     [0; 0;   255; 255; 255; 0; 0; 0];
     [0; 0;   0;   0;   0;   0; 0; 0];
     [0; 0;   0;   0;   0;   0; 0; 0] ], 2).
Proof. vm_compute. reflexivity. Qed.


Example mask_loop_far_box :
  mask_loop confidence_threshold padding poster_8x6 [title_a; far_left] =
  Raise (Exception "cv2.error").
Proof. reflexivity. Qed.




(** C4: a detection whose confidence is at most the threshold [t] is
    discarded: the loop leaves the mask and the count as they were, and
    the whole result is that of the sequence without it.  Raising the
    threshold to [t'] keeps a subsequence of the accepted detections,
    sets no new pixel and does not raise the count.  The loop of the
    source does not call [cv2.rectangle] for the detection, and it ends
    with it as it ends without it. *)
Theorem C4_threshold_discards_monotone {A} (t t' : Q) (pad : Z)
    (img : list (list A)) (before after : list Detection) (d : Detection)
    (mask : Mask) (n : Z) :
  (confidence d <= t)%Q ->
  (t <= t')%Q ->
  accepted t d = false /\
  mask_step t pad (shape0 img) (shape1 img) (mask, n) d = (mask, n) /\
  build_mask t pad img (before ++ d :: after) =
    build_mask t pad img (before ++ after) /\
  sublist (List.filter (accepted t') (before ++ d :: after))
          (List.filter (accepted t) (before ++ d :: after)) /\
  (forall x y,
     nonzero_at (fst (build_mask t' pad img (before ++ d :: after))) x y ->
     nonzero_at (fst (build_mask t pad img (before ++ d :: after))) x y) /\
  snd (build_mask t' pad img (before ++ d :: after)) <=
    snd (build_mask t pad img (before ++ d :: after)) /\
  loop_step t pad (shape0 img) (shape1 img) (mask, n) d = Ok (mask, n) /\
  mask_loop t pad img (before ++ d :: after) =
    mask_loop t pad img (before ++ after).
Proof.
  intros Hd Ht.
  assert (Hrej : accepted t d = false) by now apply rejected_iff.
  split; [exact Hrej|].
  split; [unfold mask_step; now rewrite Hrej|].
  split.
  { unfold build_mask. rewrite !fold_left_app. simpl.
    destruct (fold_left _ before _) as [m k]. simpl. now rewrite Hrej. }
  split; [now apply filter_accepted_sublist|].
  split.
  - intros x y. unfold build_mask. rewrite !loop_mask.
    intros [H | [Hs (d' & Hin & Hacc & Hi)]]; [now left|].
    right. split; [exact Hs|]. exists d'.
    eauto using accepted_antitone.
  - split; [|split].
    + unfold build_mask. rewrite !loop_count.
      pose proof (sublist_length _ _
        (filter_accepted_sublist t t' (before ++ d :: after) Ht)) as Hlen.
      lia.
    + unfold loop_step. now rewrite Hrej.
    + rewrite !mask_loop_eq.
      unfold build_mask. rewrite !fold_left_app, !List.filter_app. simpl.
      rewrite Hrej.
      destruct (fold_left _ before _) as [m k]. simpl. now rewrite Hrej.
Qed.

(** The faint detection, at confidence 0.3 exactly, changes nothing
    between the two titles. *)
Lemma C4_threshold_witness :
  (confidence faint <= confidence_threshold)%Q /\
  (confidence_threshold <= 6 # 10)%Q /\
  build_mask confidence_threshold padding poster_8x6
    ([title_a] ++ faint :: [title_b]) =
  build_mask confidence_threshold padding poster_8x6 ([title_a] ++ [title_b]).
Proof.
  assert (H1 : (confidence faint <= confidence_threshold)%Q).
  { unfold Qle. simpl. lia. }
  assert (H2 : (confidence_threshold <= 6 # 10)%Q).
  { unfold Qle. simpl. lia. }
  split; [exact H1|]. split; [exact H2|].
  exact (proj1 (proj2 (proj2
    (C4_threshold_discards_monotone confidence_threshold (6 # 10) padding
       poster_8x6 [title_a] [title_b] faint [] 0 H1 H2)))).
Defined.

(** ** The pipeline ([detect_and_blur_text]) *)


(** The first pass once the image is decoded and the engine has
    answered: the loop, then the inpainting if a region was marked. *)
Lemma process_body_after_ocr (env : Env) (url : string) (w : World)
    (response : Response) (img : Raster) (detections : list Detection) :
  requests_get env (net_calls w) url = Ok response ->
  status_ok response = true ->
  decode_bgr env (content response) = Ok img ->
  (reader w = true \/ exists u, easyocr_Reader env = Ok u) ->
  readtext env img = Ok detections ->
  snd (process_body env url w) =
  match mask_loop confidence_threshold padding img detections with
  | Raise e => Raise e
  | Ok (mask, inpaint_count) =>
      if 0 <? inpaint_count then
        match inpaint_raises env img mask with
        | Some e => Raise e
        | None => Ok (inpaint_pixels env img mask inpaintRadius)
        end
      else Ok img
  end.
Proof.
  intros Hget Hst Hdec Hrd Hocr.
  unfold_pipeline. simpl. rewrite Hget. simpl. rewrite Hst. simpl.
  rewrite Hdec. simpl.
  assert (Htail : forall w0,
    snd (let (w', r) :=
           (log EvReadtext w0, readtext env img) in
         match r with
         | Ok a =>
             let (w'0, r0) :=
               (w', mask_loop confidence_threshold padding img a) in
             match r0 with
             | Ok a0 =>
                 (let '(mask, inpaint_count) := a0 in
                  if 0 <? inpaint_count
                  then fun w1 =>
                         (log (EvInpaint inpaintRadius) w1,
                          match inpaint_raises env img mask with
                          | Some e => Raise e
                          | None =>
                              Ok (inpaint_pixels env img mask inpaintRadius)
                          end)
                  else fun w1 => (w1, Ok img)) w'0
             | Raise e => (w'0, Raise e)
             end
         | Raise e => (w', Raise e)
         end) =
    match mask_loop confidence_threshold padding img detections with
    | Raise e => Raise e
    | Ok (mask, inpaint_count) =>
        if 0 <? inpaint_count then
          match inpaint_raises env img mask with
          | Some e => Raise e
          | None => Ok (inpaint_pixels env img mask inpaintRadius)
          end
        else Ok img
    end).
  { intros w0. rewrite Hocr.
    destruct (mask_loop confidence_threshold padding img detections)
      as [[mask n]|e]; [|reflexivity].
    destruct (0 <? n); reflexivity. }
  destruct Hrd as [Hrd | [u Hu]].
  - rewrite Hrd. apply Htail.
  - destruct (reader w); [apply Htail|]. rewrite Hu. apply Htail.
Qed.

Lemma process_body_raises_iff (env : Env) (url : string) (w : World) :
  (exists e, snd (process_body env url w) = Raise e) <->
  StageFailure env url w.
Proof.
  split.
  - intros [e He]. revert He.
    destruct (requests_get env (net_calls w) url) as [response|e1] eqn:Hget.
    2:{ intros _. eauto using FetchFails. }
    destruct (status_ok response) eqn:Hst.
    2:{ intros _. eauto using StatusFails. }
    destruct (decode_bgr env (content response)) as [img|e2] eqn:Hdec.
    2:{ intros _. eauto using DecodeFails. }
    destruct (reader w) eqn:Hrd;
      [|destruct (easyocr_Reader env) as [u|e5] eqn:Hinit;
        [|intros _; eapply ReaderFails; eauto]].
    all: assert (Hr : reader w = true \/ exists u, easyocr_Reader env = Ok u)
        by (first [left; assumption | right; eauto]).
    all: destruct (readtext env img) as [dets|e3] eqn:Hocr;
        [|intros _; eapply DetectFails; eauto].
    all: rewrite (process_body_after_ocr env url w response img dets
                    Hget Hst Hdec Hr Hocr).
    all: destruct (mask_loop confidence_threshold padding img dets)
        as [[mask n]|e6] eqn:Hbm; [|intros _; eapply MaskFails; eauto].
    all: destruct (0 <? n) eqn:Hn; [|discriminate].
    all: destruct (inpaint_raises env img mask) as [e4|] eqn:Hinp;
        [|discriminate].
    all: intros _; eapply InpaintFails; eauto; now apply Z.ltb_lt.
  - intros [e H | r H Hs | r e H Hs Hd | r img e H Hs Hd Hr Hi
           | r img e H Hs Hd Hr Ho | r img dets e H Hs Hd Hr Ho Hm
           | r img dets mask n e H Hs Hd Hr Ho Hm Hn Hi].
    + unfold_pipeline. simpl. rewrite H. simpl. eauto.
    + unfold_pipeline. simpl. rewrite H. simpl. rewrite Hs. simpl. eauto.
    + unfold_pipeline. simpl. rewrite H. simpl. rewrite Hs. simpl.
      rewrite Hd. simpl. eauto.
    + unfold_pipeline. simpl. rewrite H. simpl. rewrite Hs. simpl.
      rewrite Hd. simpl. rewrite Hr, Hi. simpl. eauto.
    + unfold_pipeline. simpl. rewrite H. simpl. rewrite Hs. simpl.
      rewrite Hd. simpl.
      destruct Hr as [-> | [u ->]]; simpl.
      * rewrite Ho; simpl; eauto.
      * destruct (reader w); simpl; rewrite Ho; simpl; eauto.
    + rewrite (process_body_after_ocr env url w r img dets H Hs Hd Hr Ho).
      rewrite Hm. eauto.
    + rewrite (process_body_after_ocr env url w r img dets H Hs Hd Hr Ho).
      rewrite Hm, (proj2 (Z.ltb_lt 0 n) Hn), Hi. eauto.
Qed.

(** The world the first pass leaves. *)
Lemma process_body_world (env : Env) (url : string) (w : World) :
  exists (init : bool) (rest : list Event),
    files (fst (process_body env url w)) = files w /\
    dirs (fst (process_body env url w)) = dirs w /\
    net_calls (fst (process_body env url w)) = S (net_calls w) /\
    trace (fst (process_body env url w)) =
      trace w ++ EvGet url :: reader_events init (model_store w) ++ rest /\
    tail_events rest /\
    (init = true -> reader w = false) /\
    reader (fst (process_body env url w)) =
      reader w || (init && is_ok (easyocr_Reader env)) /\
    model_store (fst (process_body env url w)) =
      model_store w || (init && is_ok (easyocr_Reader env)).
Proof.
  unfold tail_events, process_body.
  unfold_pipeline. simpl.
  destruct (requests_get env (net_calls w) url) as [response|e1]; simpl;
    [|world_leaf false (@nil Event)].
  destruct (status_ok response); simpl; [|world_leaf false (@nil Event)].
  destruct (decode_bgr env (content response)) as [img|e2]; simpl;
    [|world_leaf false (@nil Event)].
  destruct (reader w) eqn:Hrd; simpl.
  - destruct (readtext env img) as [dets|e3]; simpl;
      [|world_leaf false [EvReadtext]].
    destruct (mask_loop confidence_threshold padding img dets)
      as [[mask n]|e4]; simpl; [|world_leaf false [EvReadtext]].
    destruct (0 <? n); simpl.
    + world_leaf false [EvReadtext; EvInpaint inpaintRadius].
    + world_leaf false [EvReadtext].
  - destruct (model_store w) eqn:Hms;
      destruct (easyocr_Reader env) as [u|e5]; simpl.
    all: try (destruct (readtext env img) as [dets|e3]; simpl;
              [destruct (mask_loop confidence_threshold padding img dets)
                 as [[mask n]|e4]; simpl; [destruct (0 <? n); simpl|]|]).
    all: first
      [ world_leaf true [EvReadtext; EvInpaint inpaintRadius]
      | world_leaf true [EvReadtext]
      | world_leaf true (@nil Event) ].
Qed.

Lemma process_body_net_calls (env : Env) (url : string) (w : World) :
  net_calls (fst (process_body env url w)) = S (net_calls w).
Proof.
  destruct (process_body_world env url w) as (i & r & H). tauto.
Qed.

Lemma calls_trace (f : Event -> bool) (w w' : World) (evs : list Event) :
  trace w' = trace w ++ evs ->
  calls f w' = (calls f w + length (List.filter f evs))%nat.
Proof.
  intros H. unfold calls. now rewrite H, List.filter_app, length_app.
Qed.

Lemma process_body_gets (env : Env) (url : string) (w : World) :
  calls is_get (fst (process_body env url w)) = S (calls is_get w).
Proof.
  destruct (process_body_world env url w)
    as (i & r & _ & _ & _ & Ht & Hr & _).
  rewrite (calls_trace _ _ _ _ Ht). simpl.
  rewrite List.filter_app, length_app.
  assert (H1 : length (List.filter is_get
                         (reader_events i (model_store w))) = O)
    by (destruct i, (model_store w); reflexivity).
  assert (H2 : length (List.filter is_get r) = O)
    by (destruct Hr as [-> | [-> | ->]]; reflexivity).
  rewrite H1, H2. lia.
Qed.

Lemma process_body_files (env : Env) (url : string) (w : World) :
  files (fst (process_body env url w)) = files w /\
  dirs (fst (process_body env url w)) = dirs w.
Proof.
  destruct (process_body_world env url w) as (i & r & H). tauto.
Qed.

Lemma fetch_original_eq (env : Env) (url : string) (w : World) :
  fetch_original env url w =
  (count_request (log (EvGet url) w),
   Ok match requests_get env (net_calls w) url with
      | Ok response =>
          match decode_bgr env (content response) with
          | Ok img => Some img
          | Raise _ => None
          end
      | Raise _ => None
      end).
Proof.
  unfold_pipeline. simpl. case_matches; reflexivity.
Qed.

Lemma detect_and_blur_text_eq (env : Env) (url : string) (bs : Z)
    (w : World) :
  detect_and_blur_text env url bs w =
  match process_body env url w with
  | (w1, Ok result) => (w1, Ok (Some result))
  | (w1, Raise _) => fetch_original env url w1
  end.
Proof.
  unfold detect_and_blur_text, try_except, bind, ret.
  destruct (process_body env url w) as [w1 [result|e]]; reflexivity.
Qed.

Lemma detect_and_blur_text_files (env : Env) (url : string) (bs : Z)
    (w : World) :
  files (fst (detect_and_blur_text env url bs w)) = files w /\
  dirs (fst (detect_and_blur_text env url bs w)) = dirs w.
Proof.
  rewrite detect_and_blur_text_eq.
  pose proof (process_body_files env url w) as H.
  destruct (process_body env url w) as [w1 [result|e]]; simpl in *.
  - exact H.
  - rewrite fetch_original_eq. simpl. exact H.
Qed.

(** The world one call leaves: the first pass, then the second request
    when the first pass raised. *)
Lemma detect_and_blur_text_world (env : Env) (url : string) (bs : Z)
    (w : World) :
  exists (init : bool) (rest : list Event) (again : bool),
    trace (fst (detect_and_blur_text env url bs w)) =
      trace w ++ EvGet url :: reader_events init (model_store w) ++ rest ++
      (if again then [EvGet url] else []) /\
    tail_events rest /\
    (init = true -> reader w = false) /\
    reader (fst (detect_and_blur_text env url bs w)) =
      reader w || (init && is_ok (easyocr_Reader env)) /\
    model_store (fst (detect_and_blur_text env url bs w)) =
      model_store w || (init && is_ok (easyocr_Reader env)).
Proof.
  rewrite detect_and_blur_text_eq.
  destruct (process_body_world env url w)
    as (i & r & _ & _ & _ & Ht & Hr & Hi & Hrd & Hms).
  destruct (process_body env url w) as [w1 [result|e]]; simpl in *.
  - exists i, r, false. rewrite app_nil_r. auto.
  - rewrite fetch_original_eq. cbn [fst trace count_request log].
    exists i, r, true. rewrite Ht.
    rewrite <- app_assoc, <- app_comm_cons, <- app_assoc. auto.
Qed.

Lemma detect_and_blur_text_get_count (env : Env) (url : string) (bs : Z)
    (w : World) :
  calls is_get (fst (detect_and_blur_text env url bs w)) =
    (calls is_get w + 1)%nat \/
  calls is_get (fst (detect_and_blur_text env url bs w)) =
    (calls is_get w + 2)%nat.
Proof.
  destruct (detect_and_blur_text_world env url bs w)
    as (i & r & again & Ht & Hr & _).
  rewrite (calls_trace _ _ _ _ Ht).
  destruct Hr as [-> | [-> | ->]];
    destruct i, (model_store w), again; simpl;
    first [left; lia | right; lia].
Qed.

(** C1, as stated, fails: when the fetch times out and the second request
    times out as well, [detect_and_blur_text] does not fail with an
    exception at all: it returns [None]. *)
Lemma C1_total_failure_returns_None :
  StageFailure env_offline poster_url0 world0 /\
  refetched env_offline poster_url0 world0 = None /\
  snd (detect_and_blur_text env_offline poster_url0 25 world0) = Ok None /\
  ~ exists e,
      snd (detect_and_blur_text env_offline poster_url0 25 world0) = Raise e.
Proof.
  split; [eapply FetchFails; reflexivity|].
  split; [reflexivity|].
  split; [reflexivity|].
  intros [e He]. discriminate He.
Qed.

(** C1, amended: for every url, if any stage of the first pass (fetch,
    decode, detect, mask, inpaint) fails, the exception is caught:
    [detect_and_blur_text] issues a second request and returns the raster
    decoded from it, unprocessed; only if that request or its decoding
    fails too does it give up, and then it returns [None] (no exception is
    raised).  In no case does an exception leave the function. *)
Theorem C1_failure_falls_back (env : Env) (url : string) (bs : Z)
    (w : World) :
  StageFailure env url w ->
  snd (detect_and_blur_text env url bs w) = Ok (refetched env url w) /\
  calls is_get (fst (detect_and_blur_text env url bs w)) =
    (calls is_get w + 2)%nat /\
  (forall url' bs' w', exists r,
     snd (detect_and_blur_text env url' bs' w') = Ok r).
Proof.
  intros Hfail.
  apply process_body_raises_iff in Hfail as [e He].
  split; [|split].
  - rewrite detect_and_blur_text_eq.
    pose proof (process_body_net_calls env url w) as Hn.
    destruct (process_body env url w) as [w1 [result|e1]]; simpl in *;
      [discriminate|].
    rewrite fetch_original_eq. simpl. unfold refetched. now rewrite Hn.
  - rewrite detect_and_blur_text_eq.
    pose proof (process_body_gets env url w) as Hg.
    destruct (process_body env url w) as [w1 [result|e1]]; simpl in *;
      [discriminate|].
    rewrite fetch_original_eq. unfold calls in *. simpl in *.
    rewrite List.filter_app, length_app. simpl. lia.
  - intros url' bs' w'. rewrite detect_and_blur_text_eq.
    destruct (process_body env url' w') as [w1 [result|e1]]; simpl.
    + eauto.
    + rewrite fetch_original_eq. simpl. eauto.
Qed.

(** When the OCR engine breaks, the poster is fetched again and returned
    as it is. *)
Lemma C1_fallback_witness :
  StageFailure env_ocr_broken poster_url0 world0 /\
  snd (detect_and_blur_text env_ocr_broken poster_url0 25 world0) =
    Ok (Some poster_8x6).
Proof.
  assert (H : StageFailure env_ocr_broken poster_url0 world0).
  { eapply DetectFails; try reflexivity. right. exists tt. reflexivity. }
  split; [exact H|].
  exact (proj1 (C1_failure_falls_back env_ocr_broken poster_url0 25 world0 H)).
Defined.

(** C2: when the image is fetched and decoded, the OCR engine answers, and
    no detection passes the confidence threshold, the result is the fetched
    raster itself, pixel for pixel, and [cv2.inpaint] is not called. *)
Theorem C2_no_accepted_detection_returns_original (env : Env)
    (url : string) (bs : Z) (w : World) (response : Response)
    (img : Raster) (detections : list Detection) :
  requests_get env (net_calls w) url = Ok response ->
  status_ok response = true ->
  decode_bgr env (content response) = Ok img ->
  (reader w = true \/ exists u, easyocr_Reader env = Ok u) ->
  readtext env img = Ok detections ->
  List.filter (accepted confidence_threshold) detections = [] ->
  snd (detect_and_blur_text env url bs w) = Ok (Some img) /\
  calls is_inpaint (fst (detect_and_blur_text env url bs w)) =
    calls is_inpaint w /\
  calls is_get (fst (detect_and_blur_text env url bs w)) =
    (calls is_get w + 1)%nat.
Proof.
  intros Hget Hst Hdec Hrd Hocr Hnone.
  assert (Hbm : exists mask,
    mask_loop confidence_threshold padding img detections = Ok (mask, 0)).
  { rewrite mask_loop_eq, Hnone. simpl.
    exists (fst (build_mask confidence_threshold padding img detections)).
    f_equal. rewrite (surjective_pairing (build_mask _ _ _ _)) at 1.
    f_equal. unfold build_mask. rewrite loop_count, Hnone. reflexivity. }
  destruct Hbm as [mask Hbm].
  unfold_pipeline. simpl. rewrite Hget. simpl. rewrite Hst. simpl.
  rewrite Hdec. simpl.
  destruct Hrd as [Hrd | [u Hu]].
  - rewrite Hrd. simpl. rewrite Hocr. simpl. rewrite Hbm. simpl.
    repeat split; count_calls.
  - destruct (reader w); [|destruct (model_store w)]; simpl; rewrite ?Hu;
      simpl; rewrite Hocr; simpl; rewrite Hbm; simpl; repeat split;
      count_calls.
Qed.

(** A poster whose only detection is at confidence 0.3 comes back as it
    was fetched. *)
Lemma C2_no_text_witness :
  requests_get env_no_text (net_calls world0) poster_url0 =
    Ok {| status_ok := true; content := poster_bytes |} /\
  List.filter (accepted confidence_threshold) [faint] = [] /\
  snd (detect_and_blur_text env_no_text poster_url0 25 world0) =
    Ok (Some poster_8x6).
Proof.
  split; [reflexivity|]. split; [reflexivity|].
  refine (proj1 (C2_no_accepted_detection_returns_original env_no_text
                   poster_url0 25 world0
                   {| status_ok := true; content := poster_bytes |}
                   poster_8x6 [faint] _ _ _ _ _ _));
    try reflexivity.
  right. exists tt. reflexivity.
Defined.

(** ** Inpainting (lines 90-93) *)

Lemma pixel_at_inpaint_pixels (env : Env) (img : Raster) (mask : Mask)
    (radius : Z) (x y : nat) :
  pixel_at (inpaint_pixels env img mask radius) x y =
  (fun p => match pixel_at mask x y with
            | Some v => if v =? 0 then p
                        else inpaint_fill env img mask radius x y
            | None => p
            end) <$> pixel_at img x y.
Proof.
  unfold inpaint_pixels, pixel_at.
  rewrite list_lookup_imap.
  destruct (img !! y) as [row|]; cbn; [|reflexivity].
  now rewrite list_lookup_imap.
Qed.

Lemma inpaint_pixels_row_length (env : Env) (img : Raster) (mask : Mask)
    (radius : Z) (y : nat) :
  length <$> (inpaint_pixels env img mask radius !! y) =
  length <$> (img !! y).
Proof.
  unfold inpaint_pixels. rewrite list_lookup_imap.
  destruct (img !! y) as [row|]; cbn; [|reflexivity].
  now rewrite length_imap.
Qed.

Lemma inpaint_pixels_shape (env : Env) (img : Raster) (mask : Mask)
    (radius : Z) :
  shape0 (inpaint_pixels env img mask radius) = shape0 img /\
  shape1 (inpaint_pixels env img mask radius) = shape1 img.
Proof.
  unfold shape0, shape1, inpaint_pixels. rewrite length_imap.
  split; [reflexivity|].
  destruct img as [|row img]; simpl; [reflexivity|].
  now rewrite length_imap.
Qed.

Lemma inpaint_pixels_unmasked (env : Env) (img : Raster) (mask : Mask)
    (radius : Z) (x y : nat) :
  ~ nonzero_at mask x y ->
  pixel_at (inpaint_pixels env img mask radius) x y = pixel_at img x y.
Proof.
  intros Hz. rewrite pixel_at_inpaint_pixels.
  destruct (pixel_at img x y) as [p|]; cbn; [|reflexivity].
  destruct (pixel_at mask x y) as [v|] eqn:Hv; [|reflexivity].
  destruct (Z.eqb_spec v 0) as [_|Hne]; [reflexivity|].
  exfalso. apply Hz. exists v. auto.
Qed.

Lemma inpaint_pixels_masked (env : Env) (img : Raster) (mask : Mask)
    (radius : Z) (x y : nat) (p : Pixel) :
  nonzero_at mask x y ->
  pixel_at img x y = Some p ->
  pixel_at (inpaint_pixels env img mask radius) x y =
    Some (inpaint_fill env img mask radius x y).
Proof.
  intros (v & Hv & Hne) Hp. rewrite pixel_at_inpaint_pixels, Hp, Hv. cbn.
  destruct (Z.eqb_spec v 0); [contradiction | reflexivity].
Qed.

(** C8: whatever raster and mask [cv2.inpaint] is given, its output has
    the dimensions of the input (as many rows, each of the same length)
    and every pixel the mask does not cover is the pixel of the input;
    only masked pixels may differ. *)
Theorem C8_inpaint_frame (env : Env) (img : Raster) (mask : Mask)
    (radius : Z) (w : World) (out : Raster) :
  snd (cv2_inpaint env img mask radius w) = Ok out ->
  (shape0 out = shape0 img /\ shape1 out = shape1 img) /\
  (forall y, length <$> (out !! y) = length <$> (img !! y)) /\
  (forall x y, ~ nonzero_at mask x y ->
               pixel_at out x y = pixel_at img x y).
Proof.
  unfold cv2_inpaint. simpl.
  destruct (inpaint_raises env img mask); [discriminate|].
  intros [= <-].
  split; [apply inpaint_pixels_shape|].
  split; [intros y; apply inpaint_pixels_row_length|].
  intros x y. apply inpaint_pixels_unmasked.
Qed.

(** The image that comes out of a first pass without failure differs from
    the fetched one only where the mask is set. *)
Lemma detect_and_blur_text_frame (env : Env) (url : string) (bs : Z)
    (w : World) (response : Response) (img : Raster)
    (detections : list Detection) (mask : Mask) (inpaint_count : Z) :
  requests_get env (net_calls w) url = Ok response ->
  status_ok response = true ->
  decode_bgr env (content response) = Ok img ->
  (reader w = true \/ exists u, easyocr_Reader env = Ok u) ->
  readtext env img = Ok detections ->
  mask_loop confidence_threshold padding img detections =
    Ok (mask, inpaint_count) ->
  inpaint_raises env img mask = None ->
  exists out,
    snd (detect_and_blur_text env url bs w) = Ok (Some out) /\
    shape0 out = shape0 img /\ shape1 out = shape1 img /\
    forall x y,
      ~ nonzero_at mask x y -> pixel_at out x y = pixel_at img x y.
Proof.
  intros Hget Hst Hdec Hrd Hocr Hloop Hinp.
  pose proof (process_body_after_ocr env url w response img detections
                Hget Hst Hdec Hrd Hocr) as Hbody.
  rewrite Hloop, Hinp in Hbody.
  rewrite detect_and_blur_text_eq.
  destruct (process_body env url w) as [w1 r]. simpl in Hbody. subst r.
  destruct (0 <? inpaint_count).
  - eexists. split; [reflexivity|].
    destruct (inpaint_pixels_shape env img mask inpaintRadius) as [H0 H1].
    repeat split; [exact H0 | exact H1 |].
    intros x y. apply inpaint_pixels_unmasked.
  - eexists. split; [reflexivity|]. auto.
Qed.

(** On the 8 x 6 poster the padded title boxes cover the whole image. *)
Example inpaint_titles :
  snd (detect_and_blur_text env_titles poster_url0 25 world0) =
  Ok (Some (replicate 6 (replicate 8 (128, 128, 128)))).
Proof. vm_compute. reflexivity. Qed.

(** On the 20 x 14 poster the title at [(9,6)-(10,7)] is removed with its
    padding, columns 4 to 15 of rows 1 to 12, and nothing else changes. *)
Example inpaint_title_mid :
  snd (detect_and_blur_text env_title_mid poster_url0 25 world0) =
  Ok (Some
    (let o := (10, 20, 30) in
     let f := (128, 128, 128) in
     let inner := replicate 4 o ++ replicate 12 f ++ replicate 4 o in
     replicate 1 (replicate 20 o) ++ replicate 12 inner
       ++ replicate 1 (replicate 20 o))).
Proof. vm_compute. reflexivity. Qed.

(** Inpainting the 8 x 6 poster under the mask of the two titles keeps
    its width. *)
Lemma C8_inpaint_witness :
  snd (cv2_inpaint env_titles poster_8x6 mask_titles inpaintRadius world0) =
    Ok (inpaint_pixels env_titles poster_8x6 mask_titles inpaintRadius) /\
  shape1 (inpaint_pixels env_titles poster_8x6 mask_titles inpaintRadius) =
    shape1 poster_8x6.
Proof.
  split; [reflexivity|].
  exact (proj2 (proj1 (C8_inpaint_frame env_titles poster_8x6 mask_titles
                         inpaintRadius world0 _ eq_refl))).
Defined.

(** ** The unused argument (lines 20-30) *)

(** C9: for every url and any two values of [blur_strength],
    [detect_and_blur_text] does the same and returns the same: the
    argument reaches neither the mask nor the returned image, and every
    call of [cv2.inpaint] it makes has radius 7. *)
Theorem C9_blur_strength_is_ignored (env : Env) (url : string)
    (b1 b2 : Z) (w : World) :
  detect_and_blur_text env url b1 w = detect_and_blur_text env url b2 w /\
  (forall r,
     In (EvInpaint r) (trace (fst (detect_and_blur_text env url b1 w))) ->
     In (EvInpaint r) (trace w) \/ r = 7).
Proof.
  split; [reflexivity|].
  intros r. unfold_pipeline. simpl.
  case_matches; simpl; rewrite ?in_app_iff; simpl;
    intuition (try discriminate);
    match goal with
    | H : EvInpaint _ = EvInpaint _ |- _ => injection H as <-
    end; right; reflexivity.
Qed.

(** ** Saving ([save_processed_image]) *)

Lemma save_processed_image_returns (env : Env) (image_array : option Raster)
    (output_path : string) (w : World) :
  exists b, snd (save_processed_image env image_array output_path w) = Ok b.
Proof.
  destruct image_array as [img|]; case_save; simpl; eauto.
Qed.

Lemma save_processed_image_files (env : Env) (image_array : option Raster)
    (output_path : string) (w : World) :
  let w' := fst (save_processed_image env image_array output_path w) in
  files w' = files w \/
  exists b, files w' = <[ output_path := b ]> (files w).
Proof.
  destruct image_array as [img|]; case_save; simpl; eauto.
Qed.

(** C10: for every output path, [save_processed_image] called with [None]
    returns [False] and leaves the world as it was: no directory, no file,
    no call to the outside.  It returns [True] only when [cv2.imwrite]
    was called on the path and reported success and the path then exists
    on disk. *)
Theorem C10_save_processed_image (env : Env) (output_path : string) :
  (forall w,
     save_processed_image env None output_path w = (w, Ok false)) /\
  (forall image_array w w',
     save_processed_image env image_array output_path w = (w', Ok true) ->
     exists img written,
       image_array = Some img /\
       imwrite env output_path img = Ok (true, written) /\
       In (EvImwrite output_path) (trace w') /\
       os_path_exists output_path w' = true).
Proof.
  split; [reflexivity|].
  intros [img|] w w'; [|discriminate].
  unfold_save. simpl.
  destruct (String.eqb (os_path_dirname output_path) ""); [discriminate|].
  destruct (bool_decide _); [discriminate|].
  destruct (makedirs_raises env _); [discriminate|].
  destruct (imwrite env output_path img) as [[success written]|e] eqn:Hw;
    [|discriminate].
  destruct written as [b|]; simpl;
    (destruct success; [|discriminate]);
    match goal with
    | |- context [os_path_exists output_path ?w1] =>
        destruct (os_path_exists output_path w1) eqn:Hex; [|discriminate]
    end;
    intros [= <-]; eexists _, _;
    (split; [reflexivity|]); (split; [exact Hw|]);
    (split; [simpl; rewrite !in_app_iff; simpl; auto | exact Hex]).
Qed.

(** ** The cache ([get_processed_poster]) *)

Lemma os_path_exists_file (p : string) (w : World) (b : list byte) :
  files w !! p = Some b -> os_path_exists p w = true.
Proof.
  intros H. unfold os_path_exists. rewrite H.
  rewrite bool_decide_eq_true_2 by eauto. reflexivity.
Qed.

Lemma os_path_exists_false (p : string) (w : World) :
  os_path_exists p w = false -> files w !! p = None.
Proof.
  unfold os_path_exists. intros H.
  apply orb_false_iff in H as [H _].
  apply bool_decide_eq_false in H.
  destruct (files w !! p) as [b|]; [|reflexivity].
  exfalso. apply H. eauto.
Qed.

Lemma send_file_files (path mimetype : string) (w : World) :
  files (fst (send_file path mimetype w)) = files w.
Proof. unfold send_file. destruct (files w !! path); reflexivity. Qed.

(** C5: for every key whose cache entry exists, whatever the session, the
    route returns the stored bytes at once: the only thing it does is to
    send the file; it issues no request, runs no OCR, no inpainting and
    writes nothing. *)
Theorem C5_cache_hit (env : Env) (session : Session) (poster_id : string)
    (w : World) (cached : list byte) :
  files w !! processed_path_of env poster_id = Some cached ->
  get_processed_poster env session poster_id w =
    (log (EvSendFile (processed_path_of env poster_id)) w,
     Ok (SendFile cached "image/jpeg")) /\
  let w' := fst (get_processed_poster env session poster_id w) in
  calls is_get w' = calls is_get w /\
  calls is_ocr w' = calls is_ocr w /\
  calls is_inpaint w' = calls is_inpaint w /\
  calls is_write w' = calls is_write w /\
  files w' = files w.
Proof.
  intros Hhit.
  assert (Heq : get_processed_poster env session poster_id w =
                (log (EvSendFile (processed_path_of env poster_id)) w,
                 Ok (SendFile cached "image/jpeg"))).
  { unfold get_processed_poster, try_except.
    rewrite (os_path_exists_file _ _ _ Hhit).
    unfold send_file. rewrite Hhit. reflexivity. }
  split; [exact Heq|].
  rewrite Heq. simpl. repeat split; count_calls.
Qed.

(** The entry of the cached poster is served as stored. *)
Lemma C5_cache_hit_witness :
  files world_cached !! processed_path_of env_titles "0cc175b9c0f1b6a8" =
    Some [xff; xd8; x00; xff; xd9]%byte /\
  snd (get_processed_poster env_titles session0 "0cc175b9c0f1b6a8"
         world_cached) =
    Ok (SendFile [xff; xd8; x00; xff; xd9]%byte "image/jpeg").
Proof.
  assert (H : files world_cached !!
                processed_path_of env_titles "0cc175b9c0f1b6a8" =
              Some [xff; xd8; x00; xff; xd9]%byte) by reflexivity.
  split; [exact H|].
  exact (f_equal snd
           (proj1 (C5_cache_hit env_titles session0 "0cc175b9c0f1b6a8"
                     world_cached _ H))).
Defined.

(** One request changes the files only by creating the file of its own
    key, and only when nothing existed at that path when it looked. *)
Lemma get_processed_poster_files (env : Env) (session : Session)
    (poster_id : string) (w : World) :
  let path := processed_path_of env poster_id in
  let w' := fst (get_processed_poster env session poster_id w) in
  files w' = files w \/
  (os_path_exists path w = false /\
   exists b, files w' = <[ path := b ]> (files w)).
Proof.
  intros path w'. subst w'.
  unfold get_processed_poster, try_except. fold path.
  destruct (os_path_exists path w) eqn:Hex.
  - left. pose proof (send_file_files path "image/jpeg" w) as Hs.
    destruct (send_file path "image/jpeg" w) as [w1 [r|e]]; simpl in *;
      [exact Hs|].
    destruct session; exact Hs.
  - destruct session as [movie_q|]; [|left; reflexivity].
    destruct (String.eqb (get_poster_id movie_q) poster_id
              && negb (String.eqb (get_poster_url movie_q) ""));
      [|left; reflexivity].
    unfold bind.
    pose proof (detect_and_blur_text_files env (get_poster_url movie_q) 51 w)
      as [Hd _].
    destruct (detect_and_blur_text env (get_poster_url movie_q) 51 w)
      as [w1 [[img|]|e]]; simpl in Hd.
    + pose proof (save_processed_image_files env (Some img) path w1) as Hsave.
      destruct (save_processed_image env (Some img) path w1)
        as [w2 [b|e]]; simpl in Hsave.
      * pose proof (send_file_files path "image/jpeg" w2) as Hs.
        destruct (send_file path "image/jpeg" w2) as [w3 [r|e]];
          simpl in *; rewrite Hs, <- Hd;
          (destruct Hsave as [-> | [b' ->]];
           [left; reflexivity | right; eauto]).
      * simpl. rewrite <- Hd.
        destruct Hsave as [-> | [b' ->]];
          [left; reflexivity | right; eauto].
    + left. exact Hd.
    + left. exact Hd.
Qed.

(** C6: a file that exists is still there, with the same bytes, after any
    sequence of requests (whatever their sessions and keys): no request
    rewrites, changes or deletes it; a request changes the files only
    when nothing existed at the path of its key when it looked, and when
    something exists there all it does is to send it. *)
Theorem C6_cache_never_rewritten (env : Env)
    (reqs : list (Session * string)) (w : World) (p : string)
    (b : list byte) :
  files w !! p = Some b ->
  files (serve env reqs w) !! p = Some b /\
  (forall session poster_id w0,
     files (fst (get_processed_poster env session poster_id w0)) <> files w0 ->
     os_path_exists (processed_path_of env poster_id) w0 = false) /\
  (forall session poster_id w0,
     os_path_exists (processed_path_of env poster_id) w0 = true ->
     fst (get_processed_poster env session poster_id w0) =
       log (EvSendFile (processed_path_of env poster_id)) w0).
Proof.
  intros Hfile. split; [|split].
  - unfold serve. revert w Hfile.
    induction reqs as [|[session poster_id] reqs IH]; intros w Hfile; simpl.
    + exact Hfile.
    + apply IH.
      destruct (get_processed_poster_files env session poster_id w)
        as [-> | [Hex [b' ->]]]; [exact Hfile|].
      apply os_path_exists_false in Hex.
      rewrite lookup_insert_ne; [exact Hfile|].
      intros <-. congruence.
  - intros session poster_id w0 Hchg.
    destruct (get_processed_poster_files env session poster_id w0)
      as [Heq | [Hex _]]; [contradiction | exact Hex].
  - intros session poster_id w0 Hex.
    unfold get_processed_poster, try_except. rewrite Hex.
    unfold send_file.
    destruct (files w0 !! processed_path_of env poster_id);
      [reflexivity|].
    destruct session; reflexivity.
Qed.

(** The first request misses, processes and writes its own entry; the
    others hit the cache. *)
Example serve_requests0 :
  let w := serve env_titles requests0 world_cached in
  files w !! "/app/static/processed_images/92eb5ffee6ae2fec.jpg" =
    Some [xff; xd8; xff; xd9]%byte /\
  calls is_get w = 1%nat /\
  List.filter is_write (trace w) =
    [ EvMakedirs "/app/static/processed_images";
      EvImwrite "/app/static/processed_images/92eb5ffee6ae2fec.jpg" ].
Proof. vm_compute. repeat split; reflexivity. Qed.

(** The cached entry is unchanged after the four requests. *)
Lemma C6_cache_witness :
  files world_cached !! cached_path = Some [xff; xd8; x00; xff; xd9]%byte /\
  files (serve env_titles requests0 world_cached) !! cached_path =
    Some [xff; xd8; x00; xff; xd9]%byte.
Proof.
  assert (H : files world_cached !! cached_path =
              Some [xff; xd8; x00; xff; xd9]%byte) by reflexivity.
  split; [exact H|].
  exact (proj1 (C6_cache_never_rewritten env_titles requests0 world_cached
                  cached_path _ H)).
Defined.

(** When [detect_and_blur_text] gives up, the route redirects the client
    to the original url and writes nothing. *)
Lemma get_processed_poster_redirects (env : Env) (movie_q : MovieQ)
    (w : World) :
  os_path_exists (processed_path_of env (poster_id movie_q)) w = false ->
  poster_url movie_q <> "" ->
  snd (detect_and_blur_text env (poster_url movie_q) 51 w) = Ok None ->
  snd (get_processed_poster env (Some movie_q) (poster_id movie_q) w) =
    Ok (Redirect (poster_url movie_q)).
Proof.
  intros Hex Hurl Hnone.
  unfold get_processed_poster, try_except, get_poster_id, get_poster_url.
  rewrite Hex, String.eqb_refl.
  destruct (String.eqb_spec (poster_url movie_q) "") as [|_];
    [contradiction|]. simpl. unfold bind.
  destruct (detect_and_blur_text env (poster_url movie_q) 51 w)
    as [w1 r]. simpl in Hnone. subst r. reflexivity.
Qed.

(** The scenario of the specification: one title at confidence 0.82 over
    [(10,10)-(110,40)] on a 500 x 750 poster. *)
Example region_scenario :
  region_of 750 500 padding (quad_of 10 10 110 40) =
  {| x_min := 5; y_min := 5; x_max := 115; y_max := 45 |}.
Proof. reflexivity. Qed.

(** A path without a directory part: [os.makedirs("")] raises and the
    function returns [False]. *)
Example save_without_directory :
  snd (save_processed_image env_titles (Some poster_8x6) "poster.jpg" world0)
  = Ok false.
Proof. reflexivity. Qed.

(** Saving the 8 x 6 poster under the cache directory returns [True] and
    the file exists afterwards. *)
Lemma C10_save_witness :
  save_processed_image env_titles (Some poster_8x6) cached_path world0 =
    (fst (save_processed_image env_titles (Some poster_8x6) cached_path
            world0), Ok true) /\
  os_path_exists cached_path
    (fst (save_processed_image env_titles (Some poster_8x6) cached_path
            world0)) = true.
Proof.
  assert (H : save_processed_image env_titles (Some poster_8x6) cached_path
                world0 =
              (fst (save_processed_image env_titles (Some poster_8x6)
                      cached_path world0), Ok true)) by reflexivity.
  split; [exact H|].
  destruct (proj2 (C10_save_processed_image env_titles cached_path)
              _ _ _ H) as (img & written & _ & _ & _ & Hex).
  exact Hex.
Defined.

(** * Further properties *)

(** ** [get_reader] and [detect_and_blur_text] over several calls *)

Lemma detect_and_blur_text_reader (env : Env) (url : string) (bs : Z)
    (w : World) :
  let w' := fst (detect_and_blur_text env url bs w) in
  (reader w = true ->
   reader w' = true /\ calls is_reader_init w' = calls is_reader_init w) /\
  ((exists u, easyocr_Reader env = Ok u) -> reader w = false ->
   (reader w' = false /\ calls is_reader_init w' = calls is_reader_init w) \/
   (reader w' = true /\
    calls is_reader_init w' = S (calls is_reader_init w))).
Proof.
  simpl.
  destruct (detect_and_blur_text_world env url bs w)
    as (i & r & again & Ht & Hr & Hi & Hrd' & _).
  assert (Hc : calls is_reader_init (fst (detect_and_blur_text env url bs w))
               = (calls is_reader_init w + if i then 1 else 0)%nat).
  { rewrite (calls_trace _ _ _ _ Ht).
    destruct Hr as [-> | [-> | ->]];
      destruct i, (model_store w), again; simpl; lia. }
  split.
  - intros Hrd. rewrite Hrd', Hc, Hrd.
    destruct i; [specialize (Hi eq_refl); congruence|].
    split; [reflexivity | lia].
  - intros [u Hu] Hrd. rewrite Hrd', Hc, Hrd, Hu.
    destruct i; simpl; [right | left]; split; auto; lia.
Qed.

(** X1: in any sequence of calls of [detect_and_blur_text] the OCR engine
    is built at most once when its constructor succeeds, and it is never
    built again once the global holds it. *)
Theorem X1_engine_built_at_most_once (env : Env) (urls : list string)
    (w : World) (u : unit) :
  easyocr_Reader env = Ok u ->
  (calls is_reader_init (detect_all env urls w) <=
     calls is_reader_init w + 1)%nat /\
  (reader w = true ->
   reader (detect_all env urls w) = true /\
   calls is_reader_init (detect_all env urls w) = calls is_reader_init w).
Proof.
  intros Hu.
  assert (Hloaded : forall urls w, reader w = true ->
    reader (detect_all env urls w) = true /\
    calls is_reader_init (detect_all env urls w) = calls is_reader_init w).
  { clear urls w. intros urls. unfold detect_all.
    induction urls as [|url urls IH]; intros w Hrd; simpl; [auto|].
    destruct (detect_and_blur_text_reader env url 25 w) as [H1 _].
    destruct (H1 Hrd) as [Hrd' Hc].
    destruct (IH _ Hrd') as [Hr Hn]. split; [exact Hr | congruence]. }
  split; [|apply Hloaded].
  revert w. unfold detect_all.
  induction urls as [|url urls IH]; intros w; simpl; [lia|].
  destruct (reader w) eqn:Hrd.
  - destruct (Hloaded (url :: urls) w Hrd) as [_ Hc].
    unfold detect_all in Hc. simpl in Hc. rewrite Hc. lia.
  - destruct (detect_and_blur_text_reader env url 25 w) as [_ H2].
    destruct (H2 (ex_intro _ u Hu) Hrd) as [[Hrd' Hc] | [Hrd' Hc]].
    + specialize (IH (fst (detect_and_blur_text env url 25 w))). lia.
    + destruct (Hloaded urls _ Hrd') as [_ Hn].
      unfold detect_all in Hn. rewrite Hn, Hc. lia.
Qed.

(** The engine is built on the first of three calls and on no other. *)
Lemma X1_engine_witness :
  easyocr_Reader env_titles = Ok tt /\
  (calls is_reader_init
     (detect_all env_titles [poster_url0; poster_url0; poster_url0] world0)
   <= calls is_reader_init world0 + 1)%nat.
Proof.
  split; [reflexivity|].
  exact (proj1 (X1_engine_built_at_most_once env_titles
                  [poster_url0; poster_url0; poster_url0] world0 tt
                  eq_refl)).
Defined.

Lemma detect_and_blur_text_gets (env : Env) (url : string) (bs : Z)
    (w : World) (u : string) :
  In (EvGet u) (trace (fst (detect_and_blur_text env url bs w))) ->
  In (EvGet u) (trace w) \/ u = url.
Proof.
  destruct (detect_and_blur_text_world env url bs w)
    as (i & r & again & Ht & Hr & _).
  rewrite Ht.
  destruct Hr as [-> | [-> | ->]];
    destruct i, (model_store w), again; simpl;
    rewrite in_app_iff; simpl;
    intuition (try discriminate);
    match goal with
    | H : EvGet _ = EvGet _ |- _ => injection H as <-
    end; right; reflexivity.
Qed.

(** X2: one call of [detect_and_blur_text] calls [requests.get] once or
    twice, never more and never none, and each time with [image_url].
    The only other traffic is the OCR engine's download of its models:
    it happens at most once in the call, only in a call that builds the
    engine, and not at all when the global holds the engine or the models
    are stored already. *)
Theorem X2_one_or_two_requests (env : Env) (url : string) (bs : Z)
    (w : World) :
  let w' := fst (detect_and_blur_text env url bs w) in
  (calls is_get w' = (calls is_get w + 1)%nat \/
   calls is_get w' = (calls is_get w + 2)%nat) /\
  (forall u, In (EvGet u) (trace w') -> In (EvGet u) (trace w) \/ u = url) /\
  (calls is_download w' <= calls is_download w + 1)%nat /\
  (calls is_download w' - calls is_download w <=
     calls is_reader_init w' - calls is_reader_init w)%nat /\
  (reader w = true \/ model_store w = true ->
   calls is_download w' = calls is_download w).
Proof.
  simpl.
  destruct (detect_and_blur_text_world env url bs w)
    as (i & r & again & Ht & Hr & Hi & _).
  split; [|split; [intros u; apply detect_and_blur_text_gets|]].
  - apply detect_and_blur_text_get_count.
  - rewrite !(calls_trace _ _ _ _ Ht).
    split; [|split].
    + destruct Hr as [-> | [-> | ->]];
        destruct i, (model_store w), again; simpl; lia.
    + destruct Hr as [-> | [-> | ->]];
        destruct i, (model_store w), again; simpl; lia.
    + intros [Hrd | Hms].
      * destruct i; [specialize (Hi eq_refl); congruence|].
        destruct Hr as [-> | [-> | ->]];
          destruct (model_store w), again; simpl; lia.
      * rewrite Hms.
        destruct Hr as [-> | [-> | ->]];
          destruct i, again; simpl; lia.
Qed.

(** X3: [detect_and_blur_text] writes no file of the application: the
    files and directories outside the model directory of the OCR engine
    are what they were, and it calls neither [os.makedirs] nor
    [cv2.imwrite].  What it may leave on disk is the models of the
    engine: they stay stored when they were, and they come to be stored
    only in a call that builds the engine. *)
Theorem X3_detect_leaves_file_system (env : Env) (url : string) (bs : Z)
    (w : World) :
  let w' := fst (detect_and_blur_text env url bs w) in
  files w' = files w /\ dirs w' = dirs w /\
  calls is_write w' = calls is_write w /\
  (model_store w = true -> model_store w' = true) /\
  (model_store w' <> model_store w ->
   calls is_reader_init w' = S (calls is_reader_init w)).
Proof.
  simpl.
  destruct (detect_and_blur_text_files env url bs w) as [Hf Hd].
  destruct (detect_and_blur_text_world env url bs w)
    as (i & r & again & Ht & Hr & Hi & _ & Hms).
  split; [exact Hf|]. split; [exact Hd|].
  rewrite !(calls_trace _ _ _ _ Ht), Hms.
  split; [|split].
  - destruct Hr as [-> | [-> | ->]];
      destruct i, (model_store w), again; simpl; lia.
  - intros ->. reflexivity.
  - intros Hne.
    destruct i; [|destruct (model_store w); simpl in Hne; congruence].
    destruct Hr as [-> | [-> | ->]];
      destruct (model_store w), again; simpl; lia.
Qed.

(** X4: the second request is not checked for its status: when the first
    answer has an error status and the body of the second answer decodes,
    whatever its status, that image is returned. *)
Theorem X4_fallback_skips_status_check (env : Env) (url : string) (bs : Z)
    (w : World) (first second : Response) (img : Raster) :
  requests_get env (net_calls w) url = Ok first ->
  status_ok first = false ->
  requests_get env (S (net_calls w)) url = Ok second ->
  decode_bgr env (content second) = Ok img ->
  snd (detect_and_blur_text env url bs w) = Ok (Some img).
Proof.
  intros H1 Hs H2 Hd.
  unfold_pipeline. simpl. rewrite H1. simpl. rewrite Hs. simpl.
  rewrite H2. simpl. rewrite Hd. reflexivity.
Qed.

(** A 404 answer whose body is an image is returned as the poster. *)
Lemma X4_fallback_witness :
  status_ok {| status_ok := false; content := poster_bytes |} = false /\
  snd (detect_and_blur_text env_error_page poster_url0 25 world0) =
    Ok (Some poster_8x6).
Proof.
  split; [reflexivity|].
  exact (X4_fallback_skips_status_check env_error_page poster_url0 25 world0
           {| status_ok := false; content := poster_bytes |}
           {| status_ok := false; content := poster_bytes |}
           poster_8x6 eq_refl eq_refl eq_refl eq_refl).
Defined.

(** ** [save_processed_image] *)

Lemma drop_while_all (f : ascii -> bool) (l : list ascii) :
  forallb f l = true -> drop_while f l = [].
Proof.
  induction l as [|c l IH]; simpl; [reflexivity|].
  destruct (f c); simpl; [exact IH | discriminate].
Qed.

Lemma forallb_rev {A} (f : A -> bool) (l : list A) :
  forallb f (rev l) = forallb f l.
Proof.
  induction l as [|a l IH]; simpl; [reflexivity|].
  rewrite forallb_app, IH. simpl. rewrite andb_true_r. apply andb_comm.
Qed.

Lemma os_path_dirname_no_sep (p : string) :
  no_sep p -> os_path_dirname p = "".
Proof.
  unfold no_sep, os_path_dirname. intros H.
  rewrite drop_while_all by now rewrite forallb_rev.
  reflexivity.
Qed.

(** X5: [save_processed_image] never lets an exception out, and whatever
    it returns it has touched no file other than [output_path]. *)
Theorem X5_save_is_contained (env : Env) (image_array : option Raster)
    (output_path : string) (w : World) :
  (exists b, snd (save_processed_image env image_array output_path w) = Ok b)
  /\
  (forall p, p <> output_path ->
     files (fst (save_processed_image env image_array output_path w)) !! p =
     files w !! p).
Proof.
  split; [apply save_processed_image_returns|].
  intros p Hp.
  destruct (save_processed_image_files env image_array output_path w)
    as [-> | [b ->]]; [reflexivity|].
  now rewrite lookup_insert_ne.
Qed.

(** X6: a path without a directory part cannot be saved to: for every
    image, [os.makedirs("")] raises, the function returns [False],
    [cv2.imwrite] is not called and the world is as before but for the
    logged call. *)
Theorem X6_save_needs_directory (env : Env) (img : Raster)
    (output_path : string) (w : World) :
  no_sep output_path ->
  save_processed_image env (Some img) output_path w =
    (log (EvMakedirs "") w, Ok false).
Proof.
  intros H. unfold_save.
  rewrite (os_path_dirname_no_sep _ H). reflexivity.
Qed.

Lemma X6_save_witness :
  no_sep "poster.jpg" /\
  save_processed_image env_titles (Some poster_8x6) "poster.jpg" world0 =
    (log (EvMakedirs "") world0, Ok false).
Proof.
  split; [reflexivity|].
  exact (X6_save_needs_directory env_titles poster_8x6 "poster.jpg" world0
           eq_refl).
Defined.

Lemma os_path_exists_put_file (p : string) (b : list byte) (w : World) :
  os_path_exists p (put_file p b w) = true.
Proof.
  apply (os_path_exists_file p _ b). simpl. apply lookup_insert_eq.
Qed.

(** X7: [save_processed_image] returns [True] exactly when the path has a
    directory part that is not a regular file, [os.makedirs] does not
    raise, [cv2.imwrite] reports success, and the path exists afterwards
    (because [cv2.imwrite] left a file there or because something was
    there already). *)
Theorem X7_save_true_iff (env : Env) (img : Raster) (output_path : string)
    (w : World) :
  let d := os_path_dirname output_path in
  snd (save_processed_image env (Some img) output_path w) = Ok true <->
  d <> "" /\ files w !! d = None /\ makedirs_raises env d = None /\
  exists written,
    imwrite env output_path img = Ok (true, written) /\
    (is_Some written \/ os_path_exists output_path (add_dir d w) = true).
Proof.
  simpl. unfold_save. simpl.
  destruct (String.eqb_spec (os_path_dirname output_path) "") as [He|He].
  { simpl. split; [discriminate | tauto]. }
  destruct (files w !! os_path_dirname output_path) as [x|] eqn:Hf.
  { rewrite bool_decide_eq_true_2 by eauto. simpl.
    split; [discriminate | intros (_ & [=] & _)]. }
  rewrite bool_decide_eq_false_2 by (intros [x [=]]).
  destruct (makedirs_raises env (os_path_dirname output_path)) as [e|].
  { simpl. split; [discriminate | intros (_ & _ & [=] & _)]. }
  destruct (imwrite env output_path img) as [[success written]|e] eqn:Hw.
  2:{ simpl. split; [discriminate | intros (_ & _ & _ & x & [=] & _)]. }
  destruct written as [b|]; simpl.
  - destruct success; simpl.
    + match goal with
      | |- context [os_path_exists output_path ?w1] =>
          change w1 with
            (put_file output_path b
               (log (EvImwrite output_path)
                  (add_dir (os_path_dirname output_path)
                     (log (EvMakedirs (os_path_dirname output_path)) w))))
      end.
      rewrite os_path_exists_put_file. simpl.
      split; [|reflexivity]. intros _.
      repeat split; try assumption. exists (Some b). eauto.
    + split; [discriminate | intros (_ & _ & _ & x & [=] & _)].
  - destruct success; simpl.
    + match goal with
      | |- context [if ?c then _ else _] =>
          change c with
            (os_path_exists output_path
               (add_dir (os_path_dirname output_path) w))
      end.
      destruct (os_path_exists output_path
                  (add_dir (os_path_dirname output_path) w)) eqn:Hex; simpl.
      * split; [|reflexivity]. intros _.
        repeat split; try assumption. exists None. auto.
      * split; [discriminate|].
        intros (_ & _ & _ & x & [= <-] & [[y [=]] | [=]]).
    + split; [discriminate | intros (_ & _ & _ & x & [=] & _)].
Qed.

Lemma X7_save_witness :
  snd (save_processed_image env_titles (Some poster_8x6) cached_path world0)
  = Ok true /\
  makedirs_raises env_titles (os_path_dirname cached_path) = None.
Proof.
  assert (H : snd (save_processed_image env_titles (Some poster_8x6)
                     cached_path world0) = Ok true) by reflexivity.
  split; [exact H|].
  exact (proj1 (proj2 (proj2
    (proj1 (X7_save_true_iff env_titles poster_8x6 cached_path world0) H)))).
Defined.

(** ** [get_processed_poster] *)

Lemma save_processed_image_gets (env : Env) (image_array : option Raster)
    (output_path : string) (w : World) (u : string) :
  In (EvGet u) (trace (fst (save_processed_image env image_array
                              output_path w))) ->
  In (EvGet u) (trace w).
Proof.
  destruct image_array as [img|]; case_save; simpl;
    rewrite ?in_app_iff; simpl; intuition discriminate.
Qed.

(** A miss with the session of the requested poster: process, save, send
    what is then on disk, or redirect. *)
Lemma get_processed_poster_miss (env : Env) (movie_q : MovieQ) (w : World) :
  let path := processed_path_of env (poster_id movie_q) in
  os_path_exists path w = false ->
  poster_url movie_q <> "" ->
  get_processed_poster env (Some movie_q) (poster_id movie_q) w =
  match detect_and_blur_text env (poster_url movie_q) 51 w with
  | (w1, Ok (Some img)) =>
      let w2 := fst (save_processed_image env (Some img) path w1) in
      (log (EvSendFile path) w2,
       Ok match files w2 !! path with
          | Some b => SendFile b "image/jpeg"
          | None => Redirect (poster_url movie_q)
          end)
  | (w1, _) => (w1, Ok (Redirect (poster_url movie_q)))
  end.
Proof.
  intros path Hex Hurl.
  unfold get_processed_poster, try_except, get_poster_id, get_poster_url.
  fold path. rewrite Hex, String.eqb_refl.
  destruct (String.eqb_spec (poster_url movie_q) "") as [|_];
    [contradiction|]. cbn [andb negb]. unfold bind.
  destruct (detect_and_blur_text env (poster_url movie_q) 51 w)
    as [w1 [[img|]|e]]; try reflexivity.
  destruct (save_processed_image_returns env (Some img) path w1) as [b Hb].
  destruct (save_processed_image env (Some img) path w1) as [w2 r].
  cbn [fst snd] in *. subst r. unfold send_file.
  destruct (files w2 !! path); reflexivity.
Qed.

(** X8: the route calls [requests.get] with no url but the [poster_url]
    of the session it is given, and only when the requested id is the id
    in that session and nothing exists at the path of that id. *)
Theorem X8_requests_only_to_session_url (env : Env) (session : Session)
    (poster_id : string) (w : World) (u : string) :
  In (EvGet u)
     (trace (fst (get_processed_poster env session poster_id w))) ->
  In (EvGet u) (trace w) \/
  (exists movie_q,
     session = Some movie_q /\ get_poster_id movie_q = poster_id /\
     u = get_poster_url movie_q /\
     os_path_exists (processed_path_of env poster_id) w = false).
Proof.
  unfold get_processed_poster, try_except.
  destruct (os_path_exists (processed_path_of env poster_id) w) eqn:Hex.
  - unfold send_file.
    destruct (files w !! processed_path_of env poster_id);
      [|destruct session]; simpl; rewrite in_app_iff; simpl;
      intuition discriminate.
  - destruct session as [movie_q|]; [|simpl; auto].
    destruct (String.eqb_spec (get_poster_id movie_q) poster_id)
      as [Hid|Hid]; simpl; [|auto].
    destruct (String.eqb (get_poster_url movie_q) ""); simpl; [auto|].
    unfold bind.
    pose proof (detect_and_blur_text_gets env (get_poster_url movie_q) 51
                  w u) as Hg.
    destruct (detect_and_blur_text env (get_poster_url movie_q) 51 w)
      as [w1 [[img|]|e]]; cbn [fst snd] in *.
    + pose proof (save_processed_image_gets env (Some img)
                    (processed_path_of env poster_id) w1 u) as Hs.
      destruct (save_processed_image env (Some img)
                  (processed_path_of env poster_id) w1) as [w2 [b|e]];
        cbn [fst snd] in *.
      * unfold send_file, ret.
        destruct (files w2 !! processed_path_of env poster_id); simpl;
          rewrite in_app_iff; simpl;
          (intros [H | [H | H]]; [| discriminate H | destruct H]);
          (destruct (Hg (Hs H)) as [Hold | ->]; [auto | right; eauto]).
      * intros H. destruct (Hg (Hs H)) as [Hold | ->]; [auto | right; eauto].
    + intros H. destruct (Hg H) as [Hold | ->]; [auto | right; eauto].
    + intros H. destruct (Hg H) as [Hold | ->]; [auto | right; eauto].
Qed.

(** X9: the route always answers: whatever the session, the key and the
    world, no exception leaves it. *)
Theorem X9_route_always_answers (env : Env) (session : Session)
    (poster_id : string) (w : World) :
  exists r, snd (get_processed_poster env session poster_id w) = Ok r.
Proof.
  unfold get_processed_poster, try_except.
  match goal with
  | |- context [match ?body with _ => _ end] =>
      destruct body as [w1 [r|e]]
  end; simpl; [eauto|].
  destruct session; simpl; eauto.
Qed.

(** The miss of the first sample request fetches the url of its session. *)
Lemma X8_requests_witness :
  In (EvGet poster_url0)
     (trace (fst (get_processed_poster env_titles session_other
                    "92eb5ffee6ae2fec" world_cached))) /\
  (In (EvGet poster_url0) (trace world_cached) \/
   exists movie_q,
     session_other = Some movie_q /\
     get_poster_id movie_q = "92eb5ffee6ae2fec" /\
     poster_url0 = get_poster_url movie_q /\
     os_path_exists (processed_path_of env_titles "92eb5ffee6ae2fec")
       world_cached = false).
Proof.
  assert (H : In (EvGet poster_url0)
                (trace (fst (get_processed_poster env_titles session_other
                               "92eb5ffee6ae2fec" world_cached)))).
  { vm_compute. left. reflexivity. }
  split; [exact H|].
  exact (X8_requests_only_to_session_url env_titles session_other
           "92eb5ffee6ae2fec" world_cached poster_url0 H).
Defined.

(** What the route sends is what is on disk at the path of the key when
    it returns. *)
Lemma get_processed_poster_sends_file (env : Env) (session : Session)
    (poster_id : string) (w : World) (body : list byte) (mimetype : string) :
  snd (get_processed_poster env session poster_id w) =
    Ok (SendFile body mimetype) ->
  files (fst (get_processed_poster env session poster_id w))
    !! processed_path_of env poster_id = Some body.
Proof.
  unfold get_processed_poster, try_except.
  destruct (os_path_exists (processed_path_of env poster_id) w) eqn:Hex.
  - unfold send_file.
    destruct (files w !! processed_path_of env poster_id) eqn:Hf;
      [|destruct session]; simpl; intros [= <-]; try discriminate.
    exact Hf.
  - destruct session as [movie_q|]; [|discriminate].
    destruct (String.eqb (get_poster_id movie_q) poster_id
              && negb (String.eqb (get_poster_url movie_q) ""));
      [|discriminate].
    unfold bind.
    destruct (detect_and_blur_text env (get_poster_url movie_q) 51 w)
      as [w1 [[img|]|e]]; cbn [fst snd]; try discriminate.
    destruct (save_processed_image env (Some img)
                (processed_path_of env poster_id) w1) as [w2 [b|e]];
      cbn [fst snd]; [|discriminate].
    unfold send_file.
    destruct (files w2 !! processed_path_of env poster_id) eqn:Hf; simpl;
      intros [= <-]; try discriminate.
    exact Hf.
Qed.



(** X11: a poster whose processing failed is cached all the same: when a
    stage of the first pass fails and the second request yields the
    original image, the route saves that unprocessed image under the key
    and sends it; by X10 it is what every later request gets. *)
Theorem X11_failed_processing_is_cached (env : Env) (movie_q : MovieQ)
    (w : World) (img : Raster) (b : list byte) :
  let path := processed_path_of env (poster_id movie_q) in
  os_path_exists path w = false ->
  poster_url movie_q <> "" ->
  StageFailure env (poster_url movie_q) w ->
  refetched env (poster_url movie_q) w = Some img ->
  os_path_dirname path <> "" ->
  files w !! os_path_dirname path = None ->
  makedirs_raises env (os_path_dirname path) = None ->
  imwrite env path img = Ok (true, Some b) ->
  snd (get_processed_poster env (Some movie_q) (poster_id movie_q) w) =
    Ok (SendFile b "image/jpeg") /\
  files (fst (get_processed_poster env (Some movie_q) (poster_id movie_q) w))
    !! path = Some b.
Proof.
  intros path Hex Hurl Hfail Href Hdir Hfile Hmk Hw.
  assert (Hres : snd (get_processed_poster env (Some movie_q)
                        (poster_id movie_q) w) =
                 Ok (SendFile b "image/jpeg")).
  { rewrite (get_processed_poster_miss env movie_q w Hex Hurl). fold path.
    apply process_body_raises_iff in Hfail as [e He].
    pose proof (detect_and_blur_text_files env (poster_url movie_q) 51 w)
      as [Hf _].
    rewrite detect_and_blur_text_eq in *.
    pose proof (process_body_net_calls env (poster_url movie_q) w) as Hn.
    destruct (process_body env (poster_url movie_q) w) as [w1 [r|e1]];
      simpl in He, Hn; [discriminate|].
    rewrite fetch_original_eq in *. rewrite Hn.
    unfold refetched in Href.
    destruct (requests_get env (S (net_calls w)) (poster_url movie_q))
      as [response|]; [|discriminate].
    destruct (decode_bgr env (content response)) as [img'|];
      [|discriminate].
    injection Href as ->. simpl in Hf.
    unfold_save. simpl.
    destruct (String.eqb_spec (os_path_dirname path) "");
      [contradiction|].
    rewrite Hf, Hfile.
    rewrite bool_decide_eq_false_2 by (intros [x [=]]).
    rewrite Hmk, Hw. simpl.
    match goal with
    | |- context [os_path_exists path ?w2] =>
        replace (os_path_exists path w2) with true
          by (symmetry; apply (os_path_exists_file path _ b); simpl;
              apply lookup_insert_eq)
    end.
    simpl. rewrite lookup_insert_eq. reflexivity. }
  split; [exact Hres|].
  exact (get_processed_poster_sends_file env (Some movie_q)
           (poster_id movie_q) w b "image/jpeg" Hres).
Qed.

(** X12: when [cv2.imwrite] leaves nothing at the path, the route answers
    a miss of the session's poster with a redirect to the original url,
    whatever the processing gave, and the files are as before. *)
Theorem X12_failed_save_redirects (env : Env) (movie_q : MovieQ)
    (w : World) :
  let path := processed_path_of env (poster_id movie_q) in
  os_path_exists path w = false ->
  poster_url movie_q <> "" ->
  imwrite_leaves_nothing env path ->
  snd (get_processed_poster env (Some movie_q) (poster_id movie_q) w) =
    Ok (Redirect (poster_url movie_q)) /\
  files (fst (get_processed_poster env (Some movie_q) (poster_id movie_q) w))
    = files w.
Proof.
  intros path Hex Hurl Hnothing.
  rewrite (get_processed_poster_miss env movie_q w Hex Hurl). fold path.
  pose proof (detect_and_blur_text_files env (poster_url movie_q) 51 w)
    as [Hf _].
  destruct (detect_and_blur_text env (poster_url movie_q) 51 w)
    as [w1 [[img|]|e]]; simpl in Hf; [|auto|auto].
  assert (Hsave : files (fst (save_processed_image env (Some img) path w1))
                  = files w1).
  { specialize (Hnothing img). unfold_save. simpl.
    destruct (String.eqb (os_path_dirname path) ""); [reflexivity|].
    destruct (bool_decide _); [reflexivity|].
    destruct (makedirs_raises env _); [reflexivity|].
    destruct (imwrite env path img) as [[success [x|]]|e];
      [contradiction| |reflexivity].
    simpl. destruct success; [|reflexivity].
    match goal with
    | |- context [if ?c then _ else _] => destruct c
    end; reflexivity. }
  cbv zeta. cbn [fst snd files log]. rewrite Hsave, Hf.
  rewrite (os_path_exists_false _ _ Hex). auto.
Qed.

(** X13: without the session of the requested poster a miss costs
    nothing: with no session the answer is 404, with the session of
    another poster (or one without url) it is a redirect to the url of
    that session, and in both cases the world is exactly as before. *)
Theorem X13_miss_without_matching_session (env : Env) (session : Session)
    (poster_id : string) (w : World) :
  os_path_exists (processed_path_of env poster_id) w = false ->
  match session with
  | None => True
  | Some movie_q =>
      get_poster_id movie_q <> poster_id \/ get_poster_url movie_q = ""
  end ->
  get_processed_poster env session poster_id w =
    (w, Ok match session with
           | None => Body "Image not found" 404
           | Some movie_q => Redirect (get_poster_url movie_q)
           end).
Proof.
  intros Hex Hs. unfold get_processed_poster, try_except. rewrite Hex.
  destruct session as [movie_q|]; [|reflexivity].
  destruct (String.eqb_spec (get_poster_id movie_q) poster_id) as [Hid|Hid];
    simpl; [|reflexivity].
  destruct (String.eqb_spec (get_poster_url movie_q) "") as [Hu|Hu];
    simpl; [reflexivity|].
  destruct Hs; contradiction.
Qed.

(** With the OCR engine broken the poster is stored as it was fetched. *)
Lemma X11_failed_processing_witness :
  StageFailure env_ocr_broken (poster_url movie_q_other) world_cached /\
  refetched env_ocr_broken (poster_url movie_q_other) world_cached =
    Some poster_8x6 /\
  files (fst (get_processed_poster env_ocr_broken (Some movie_q_other)
                (poster_id movie_q_other) world_cached))
    !! other_path = Some [xff; xd8; xff; xd9]%byte.
Proof.
  assert (H : StageFailure env_ocr_broken (poster_url movie_q_other)
                world_cached).
  { eapply DetectFails; try reflexivity. right. exists tt. reflexivity. }
  split; [exact H|]. split; [reflexivity|].
  refine (proj2 (X11_failed_processing_is_cached env_ocr_broken
                   movie_q_other world_cached poster_8x6
                   [xff; xd8; xff; xd9]%byte _ _ H _ _ _ _ _));
    try reflexivity; discriminate.
Defined.

(** With a full disk the client is sent to the original url. *)
Lemma X12_failed_save_witness :
  imwrite_leaves_nothing env_disk_full other_path /\
  snd (get_processed_poster env_disk_full (Some movie_q_other)
         (poster_id movie_q_other) world_cached) =
    Ok (Redirect poster_url0).
Proof.
  assert (H : imwrite_leaves_nothing env_disk_full other_path)
    by (intros img; exact I).
  split; [exact H|].
  refine (proj1 (X12_failed_save_redirects env_disk_full movie_q_other
                   world_cached _ _ H));
    [reflexivity | discriminate].
Defined.

(** The session of one poster, the key of another. *)
Lemma X13_miss_witness :
  os_path_exists (processed_path_of env_titles "92eb5ffee6ae2fec")
    world_cached = false /\
  get_processed_poster env_titles session0 "92eb5ffee6ae2fec" world_cached =
    (world_cached, Ok (Redirect poster_url0)).
Proof.
  split; [reflexivity|].
  refine (X13_miss_without_matching_session env_titles session0
            "92eb5ffee6ae2fec" world_cached _ _);
    [reflexivity | left; discriminate].
Defined.

(** ** The leaderboard *)

Lemma insert_desc_perm (x : Entry) (l : list Entry) :
  Permutation (insert_desc x l) (x :: l).
Proof.
  induction l as [|y l IH]; simpl; [reflexivity|].
  destruct (score x <? score y); [|reflexivity].
  rewrite IH. apply perm_swap.
Qed.

Lemma sort_by_score_reverse_perm (l : list Entry) :
  Permutation (sort_by_score_reverse l) l.
Proof.
  induction l as [|x l IH]; simpl; [reflexivity|].
  rewrite insert_desc_perm. now constructor.
Qed.

Lemma insert_desc_descending (x : Entry) (l : list Entry) :
  descending l -> descending (insert_desc x l).
Proof.
  unfold descending. induction l as [|y l IH]; intros Hs; simpl.
  - repeat constructor.
  - apply StronglySorted_inv in Hs as [Hl Hy].
    destruct (Z.ltb_spec (score x) (score y)) as [Hlt|Hge].
    + constructor; [now apply IH|].
      rewrite insert_desc_perm. constructor; [lia | exact Hy].
    + constructor; [now constructor|].
      constructor; [lia|].
      eapply Forall_impl; [exact Hy|]. simpl. intros a Ha. lia.
Qed.

Lemma sort_by_score_reverse_descending (l : list Entry) :
  descending (sort_by_score_reverse l).
Proof.
  induction l as [|x l IH]; simpl.
  - constructor.
  - now apply insert_desc_descending.
Qed.

Lemma insert_desc_front (y : Entry) (l : list Entry) :
  Forall (fun a => score a <= score y) l -> insert_desc y l = y :: l.
Proof.
  destruct l as [|h l]; simpl; [reflexivity|].
  intros H. apply Forall_inv in H.
  destruct (Z.ltb_spec (score y) (score h)); [lia | reflexivity].
Qed.

Lemma descending_app (l1 l2 : list Entry) (a b : Entry) :
  descending (l1 ++ l2) -> In a l1 -> In b l2 -> score b <= score a.
Proof.
  unfold descending. induction l1 as [|x l1 IH]; simpl; [tauto|].
  intros Hs [<- | Ha] Hb; apply StronglySorted_inv in Hs as [Hl Hx].
  - rewrite List.Forall_forall in Hx. apply Hx. apply in_or_app. now right.
  - now apply IH.
Qed.

(** Where a new entry of score [s] goes in a sorted leaderboard: after
    the entries that score at least [s], before those that score less. *)
Lemma sort_new_entry (e : Entry) (l : list Entry) :
  descending l ->
  sort_by_score_reverse (l ++ [e]) =
  List.filter (fun a => score e <=? score a) l ++
  e :: List.filter (fun a => score a <? score e) l.
Proof.
  unfold sort_by_score_reverse. rewrite fold_right_app. simpl.
  unfold descending. induction l as [|y l IH]; intros Hs; simpl;
    [reflexivity|].
  apply StronglySorted_inv in Hs as [Hl Hy].
  rewrite (IH Hl).
  destruct (Z.leb_spec (score e) (score y)) as [Hge|Hlt].
  - rewrite (proj2 (Z.ltb_ge (score y) (score e))) by lia.
    apply insert_desc_front.
    rewrite List.Forall_forall in *. intros a Ha.
    apply in_app_or in Ha as [Ha | [<- | Ha]]; [| lia |];
      apply filter_In in Ha as [Ha _]; auto.
  - rewrite (proj2 (Z.ltb_lt (score y) (score e))) by lia.
    assert (Hnone : List.filter (fun a => score e <=? score a) l = []).
    { clear IH Hl. induction l as [|a l IHl]; simpl; [reflexivity|].
      pose proof (Forall_inv Hy). pose proof (Forall_inv_tail Hy).
      simpl in *.
      rewrite (proj2 (Z.leb_gt (score e) (score a))) by lia. auto. }
    assert (Hall : List.filter (fun a => score a <? score e) l = l).
    { clear IH Hl Hnone. induction l as [|a l IHl]; simpl; [reflexivity|].
      pose proof (Forall_inv Hy). pose proof (Forall_inv_tail Hy).
      simpl in *.
      rewrite (proj2 (Z.ltb_lt (score a) (score e))) by lia.
      f_equal. auto. }
    rewrite Hnone, Hall. simpl.
    rewrite (proj2 (Z.ltb_lt (score y) (score e))) by lia.
    f_equal. now apply insert_desc_front.
Qed.

Lemma descending_prefix (l1 l2 : list Entry) :
  descending (l1 ++ l2) -> descending l1.
Proof.
  unfold descending. induction l1 as [|x l1 IH]; simpl; intros Hs.
  - constructor.
  - apply StronglySorted_inv in Hs as [Hl Hx].
    constructor; [now apply IH|].
    apply Forall_app in Hx. tauto.
Qed.

Example add_score_tie :
  add_score "Eve" 70 (Holds board0) =
  (Holds [ {| name := "Ann"; score := 90 |}; {| name := "Bob"; score := 70 |};
           {| name := "Cy"; score := 70 |}; {| name := "Eve"; score := 70 |};
           {| name := "Dee"; score := 20 |} ], Ok tt).
Proof. reflexivity. Qed.

Lemma add_score_sorted (player : string) (points : Z) (file : JsonFile)
    (old : list Entry) :
  load_leaderboard file = Ok old ->
  exists new,
    add_score player points file = (Holds new, Ok tt) /\
    Permutation new (old ++ [mkEntry player points]) /\
    length new = S (length old) /\
    descending new.
Proof.
  intros Hload. unfold add_score. rewrite Hload.
  eexists. split; [reflexivity|].
  split; [apply sort_by_score_reverse_perm|].
  split; [|apply sort_by_score_reverse_descending].
  rewrite (Permutation_length (sort_by_score_reverse_perm _)).
  rewrite length_app. simpl. lia.
Qed.

(** X14: [add_score] loses nothing and sorts everything: whatever order
    the file was in, afterwards it holds the old entries and the new one,
    one more than before, highest score first. *)
Theorem X14_add_score_keeps_and_sorts (name : string) (score : Z)
    (file : JsonFile) (old : list Entry) :
  load_leaderboard file = Ok old ->
  exists new,
    add_score name score file = (Holds new, Ok tt) /\
    Permutation new (old ++ [mkEntry name score]) /\
    length new = S (length old) /\
    descending new.
Proof.
  apply add_score_sorted.
Qed.

Lemma X14_add_score_witness :
  load_leaderboard (Holds board0) = Ok board0 /\
  exists new,
    add_score "Eve" 70 (Holds board0) = (Holds new, Ok tt) /\
    Permutation new (board0 ++ [mkEntry "Eve" 70]) /\
    length new = S (length board0) /\
    descending new.
Proof.
  split; [reflexivity|].
  exact (X14_add_score_keeps_and_sorts "Eve" 70 (Holds board0) board0
           eq_refl).
Defined.

(** X15: in a leaderboard that is in order, a new score goes below the
    entries with the same or a higher score and above those with a lower
    one, and the others keep their order: among equal scores the earlier
    entry ranks first. *)
Theorem X15_new_score_goes_below_ties (player : string) (points : Z)
    (file : JsonFile) (old : list Entry) :
  load_leaderboard file = Ok old ->
  descending old ->
  fst (add_score player points file) =
  Holds (List.filter (fun a => points <=? score a) old ++
         mkEntry player points ::
         List.filter (fun a => score a <? points) old).
Proof.
  intros Hload Hsorted. unfold add_score. rewrite Hload. simpl.
  unfold save_leaderboard. f_equal.
  exact (sort_new_entry (mkEntry player points) old Hsorted).
Qed.

Lemma board0_descending : descending board0.
Proof.
  unfold descending, board0.
  repeat (constructor; [|repeat constructor; simpl; lia]). constructor.
Qed.

Lemma X15_new_score_witness :
  load_leaderboard (Holds board0) = Ok board0 /\
  descending board0 /\
  fst (add_score "Eve" 70 (Holds board0)) =
    Holds [ {| name := "Ann"; score := 90 |};
            {| name := "Bob"; score := 70 |};
            {| name := "Cy"; score := 70 |};
            {| name := "Eve"; score := 70 |};
            {| name := "Dee"; score := 20 |} ].
Proof.
  split; [reflexivity|]. split; [exact board0_descending|].
  exact (X15_new_score_goes_below_ties "Eve" 70 (Holds board0) board0
           eq_refl board0_descending).
Defined.

(** X16: after [add_score], [get_top_scores(limit)] with a limit that is
    not negative returns the first [limit] entries of the file, or all of
    them when there are fewer: they are in descending order and none of
    the entries left out scores more than one that is listed. *)
Theorem X16_top_scores_are_the_highest (player : string) (points limit : Z)
    (file : JsonFile) (old : list Entry) :
  load_leaderboard file = Ok old ->
  0 <= limit ->
  exists top rest,
    get_top_scores limit (fst (add_score player points file)) = Ok top /\
    fst (add_score player points file) = Holds (top ++ rest) /\
    length top = Nat.min (Z.to_nat limit) (S (length old)) /\
    descending top /\
    (forall a b, In a top -> In b rest -> score b <= score a).
Proof.
  intros Hload Hlimit.
  destruct (add_score_sorted player points file old Hload)
    as (new & Hadd & Hperm & Hlen & Hdesc).
  rewrite Hadd. simpl. unfold get_top_scores, slice_to. simpl.
  rewrite (proj2 (Z.ltb_ge limit 0)) by lia.
  exists (take (Z.to_nat limit) new), (drop (Z.to_nat limit) new).
  split; [reflexivity|].
  rewrite take_drop. split; [reflexivity|].
  split; [rewrite length_take, Hlen; reflexivity|].
  rewrite <- (take_drop (Z.to_nat limit) new) in Hdesc.
  split; [exact (descending_prefix _ _ Hdesc)|].
  intros a b. now apply descending_app.
Qed.

Lemma X16_top_scores_witness :
  load_leaderboard (Holds board0) = Ok board0 /\
  0 <= 3 /\
  get_top_scores 3 (fst (add_score "Eve" 95 (Holds board0))) =
    Ok [ {| name := "Eve"; score := 95 |}; {| name := "Ann"; score := 90 |};
         {| name := "Bob"; score := 70 |} ].
Proof.
  assert (H : 0 <= 3) by lia.
  split; [reflexivity|]. split; [exact H|].
  destruct (X16_top_scores_are_the_highest "Eve" 95 3 (Holds board0) board0
              eq_refl H) as (top & rest & Htop & _).
  reflexivity.
Defined.

(** ** The game routes *)

Lemma get_movie_question_leaderboard (genv : GameEnv) (gw : GameWorld) :
  leaderboard_file (fst (get_movie_question genv gw)) = leaderboard_file gw.
Proof.
  unfold get_movie_question.
  repeat match goal with
         | |- context [match ?x with _ => _ end] => destruct x
         end; reflexivity.
Qed.

(** What one request does to the leaderboard file: nothing, unless it is
    a visit of [/game-over] by a named player with a readable file. *)
Lemma dispatch_leaderboard (genv : GameEnv) (req : GameRequest)
    (session : GameSession) (gw : GameWorld) :
  let gw' := snd (fst (dispatch genv req session gw)) in
  leaderboard_file gw' = leaderboard_file gw \/
  exists player_name old,
    req = GetGameOver /\
    session_player_name session = Some player_name /\
    load_leaderboard (leaderboard_file gw) = Ok old /\
    leaderboard_file gw' =
      Holds (sort_by_score_reverse
               (old ++ [mkEntry player_name
                          (default 0 (session_score session))])).
Proof.
  destruct req; simpl;
    unfold home, start_game, movie_question, check_answer, next_question,
      game_over, play_again.
  - auto.
  - destruct (String.eqb _ ""); auto.
  - destruct (session_player_name session); [|auto].
    destruct (10 <=? _); [auto|].
    destruct (session_movie_q session); [auto|].
    pose proof (get_movie_question_leaderboard genv gw) as H.
    destruct (get_movie_question genv gw) as [gw' [q|e]]; auto.
  - auto.
  - destruct (session_player_name session); auto.
  - destruct (session_player_name session) as [player_name|]; [|auto].
    unfold add_score, get_top_scores.
    destruct (load_leaderboard (leaderboard_file gw)) as [old|e] eqn:Hl;
      simpl; [|auto].
    right. exists player_name, old. auto.
  - destruct (session_player_name session); auto.
Qed.

(** X17: a leaderboard file that [json.load] rejects is never repaired:
    it is still there after any sequence of requests, and every visit of
    [/game-over] by a named player ends in the decoder's exception. *)
Theorem X17_corrupt_leaderboard_stays (genv : GameEnv)
    (reqs : list GameRequest) (session : GameSession) (gw : GameWorld) :
  leaderboard_file gw = Corrupt ->
  leaderboard_file (snd (play genv reqs session gw)) = Corrupt /\
  (forall session' player_name,
     session_player_name session' = Some player_name ->
     snd (game_over session' gw) = Raise (Exception "JSONDecodeError")).
Proof.
  intros Hc. split.
  - unfold play. revert session gw Hc.
    induction reqs as [|req reqs IH]; intros session gw Hc; simpl;
      [exact Hc|].
    destruct (dispatch_leaderboard genv req session gw)
      as [H | (n & old & _ & _ & Hl & _)].
    + destruct (dispatch genv req session gw) as [[s' gw'] r].
      simpl in *. apply IH. congruence.
    + rewrite Hc in Hl. discriminate.
  - intros session' player_name Hp. unfold game_over, add_score.
    rewrite Hp, Hc. reflexivity.
Qed.

Lemma X17_corrupt_witness :
  leaderboard_file gw_corrupt = Corrupt /\
  snd (game_over session_eve gw_corrupt) =
    Raise (Exception "JSONDecodeError").
Proof.
  split; [reflexivity|].
  exact (proj2 (X17_corrupt_leaderboard_stays
                  genv0
                  [] session_eve gw_corrupt eq_refl)
           session_eve "Eve" eq_refl).
Defined.

(** X18: [/game-over] records the score on every visit, whatever the
    number of questions answered: [k] visits by a named player add [k]
    entries with the name and score of the session, and leave the session
    as it is. *)
Theorem X18_game_over_records_every_visit (genv : GameEnv) (k : nat)
    (session : GameSession) (gw : GameWorld) (player_name : string)
    (old : list Entry) :
  session_player_name session = Some player_name ->
  load_leaderboard (leaderboard_file gw) = Ok old ->
  exists new leaderboard,
    play genv (repeat GetGameOver k) session gw =
      (session, {| leaderboard_file := new; api_calls := api_calls gw;
                   draws := draws gw |}) /\
    load_leaderboard new = Ok leaderboard /\
    Permutation leaderboard
      (old ++ repeat (mkEntry player_name
                        (default 0 (session_score session))) k).
Proof.
  intros Hp. unfold play. revert gw old.
  induction k as [|k IH]; intros gw old Hl; simpl.
  - exists (leaderboard_file gw), old. destruct gw as [f a d]. simpl in *.
    split; [reflexivity|]. split; [exact Hl|]. now rewrite app_nil_r.
  - unfold game_over at 1, add_score, get_top_scores. rewrite Hp, Hl.
    simpl.
    edestruct (IH {| leaderboard_file :=
                       Holds (sort_by_score_reverse
                                (old ++ [mkEntry player_name
                                           (default 0
                                              (session_score session))]));
                     api_calls := api_calls gw; draws := draws gw |})
      as (new & l & Hplay & Hload & Hperm); [reflexivity|].
    exists new, l. split; [exact Hplay|]. split; [exact Hload|].
    rewrite Hperm, sort_by_score_reverse_perm, <- app_assoc. reflexivity.
Qed.

Lemma X18_game_over_witness :
  session_player_name session_eve = Some "Eve" /\
  load_leaderboard (leaderboard_file gw0) = Ok board0 /\
  leaderboard_file
    (snd (play genv0 (repeat GetGameOver 2) session_eve gw0)) =
    Holds [ {| name := "Ann"; score := 90 |};
            {| name := "Bob"; score := 70 |};
            {| name := "Cy"; score := 70 |};
            {| name := "Eve"; score := 70 |};
            {| name := "Eve"; score := 70 |};
            {| name := "Dee"; score := 20 |} ].
Proof.
  split; [reflexivity|]. split; [reflexivity|].
  destruct (X18_game_over_records_every_visit
              genv0 2 session_eve gw0 "Eve" board0 eq_refl eq_refl)
    as (new & l & Hplay & _).
  reflexivity.
Defined.

Lemma dispatch_session_ok (genv : GameEnv) (req : GameRequest)
    (session : GameSession) (gw : GameWorld) :
  session_ok session ->
  session_ok (fst (fst (dispatch genv req session gw))).
Proof.
  intros Hok. destruct req; simpl;
    unfold home, start_game, movie_question, check_answer, next_question,
      game_over, play_again.
  - exact Hok.
  - destruct (String.eqb_spec (strip (default "" form_player_name)) "");
      simpl; [exact Hok|].
    unfold session_ok. simpl. split; [assumption|].
    exists 0, 0. repeat split; try lia. apply Z.divide_0_r.
  - destruct (session_player_name session) eqn:Hp; [|exact Hok].
    destruct (10 <=? _); [exact Hok|].
    destruct (session_movie_q session); [exact Hok|].
    destruct (get_movie_question genv gw) as [gw' [q|e]]; simpl;
      [|exact Hok].
    unfold session_ok in *. simpl. rewrite Hp in *. exact Hok.
  - exact Hok.
  - destruct (session_player_name session) eqn:Hp; [|exact Hok].
    unfold session_ok in *. rewrite Hp in Hok. simpl.
    destruct Hok as (Hne & sc & c & Hs & Hc & Hb & Hd).
    split; [exact Hne|]. rewrite Hs, Hc. simpl.
    destruct arg_correct as [v|]; [destruct (String.eqb v "true")|];
      eexists _, _; (split; [reflexivity|]); (split; [reflexivity|]);
      (split; [lia|]); try exact Hd.
    apply Z.divide_add_r; [exact Hd | apply Z.divide_refl].
  - destruct (session_player_name session); [|exact Hok].
    unfold add_score, get_top_scores.
    destruct (load_leaderboard _); exact Hok.
  - destruct (session_player_name session) eqn:Hp; [|exact Hok].
    unfold session_ok in *. rewrite Hp in Hok. simpl.
    split; [tauto|]. exists 0, 0. repeat split; try lia.
    apply Z.divide_0_r.
Qed.

(** X19: whatever requests a client sends to the game routes from a
    fresh session, in any order and number, a session that names a player
    has a name that is not empty, a score and a question count, and the
    score is a multiple of 10 between 0 and ten times the count. *)
Theorem X19_session_stays_consistent (genv : GameEnv)
    (reqs : list GameRequest) (gw : GameWorld) :
  session_ok (fst (play genv reqs session_clear gw)).
Proof.
  assert (H : forall session gw, session_ok session ->
                session_ok (fst (play genv reqs session gw))).
  { unfold play. induction reqs as [|req reqs IH]; intros session gw0 Hok;
      simpl; [exact Hok|].
    pose proof (dispatch_session_ok genv req session gw0 Hok) as Hstep.
    destruct (dispatch genv req session gw0) as [[s' gw'] r].
    simpl in *. now apply IH. }
  apply H. exact I.
Qed.

(** X20: the routes do not stop counting at ten questions, and they take
    the client's word for the answer: [k] requests of
    [/movie-question/next?correct=true] add [10 * k] to the score and [k]
    to the question count, for every [k], and touch nothing else. *)
Theorem X20_score_has_no_cap (genv : GameEnv) (k : nat)
    (session : GameSession) (gw : GameWorld) (player_name : string)
    (points question_count : Z) :
  session_player_name session = Some player_name ->
  session_score session = Some points ->
  session_question_count session = Some question_count ->
  play genv (repeat (GetNextQuestion (Some "true")) (S k)) session gw =
    ({| session_player_name := Some player_name;
        session_score := Some (points + 10 * Z.of_nat (S k));
        session_question_count := Some (question_count + Z.of_nat (S k));
        session_movie_q := None |}, gw).
Proof.
  assert (Hstep : forall session points question_count,
    session_player_name session = Some player_name ->
    session_score session = Some points ->
    session_question_count session = Some question_count ->
    fst (dispatch genv (GetNextQuestion (Some "true")) session gw) =
      ({| session_player_name := Some player_name;
          session_score := Some (points + 10);
          session_question_count := Some (question_count + 1);
          session_movie_q := None |}, gw)).
  { intros s p c Hp Hs Hc. simpl. unfold next_question.
    rewrite Hp, Hs, Hc. reflexivity. }
  unfold play. revert session points question_count.
  induction k as [|k IH]; intros session points question_count Hp Hs Hc.
  - cbn [repeat fold_left fst snd].
    rewrite (Hstep _ _ _ Hp Hs Hc). reflexivity.
  - change (repeat (GetNextQuestion (Some "true")) (S (S k)))
      with (GetNextQuestion (Some "true")
              :: repeat (GetNextQuestion (Some "true")) (S k)).
    cbn [fold_left fst snd].
    rewrite (Hstep _ _ _ Hp Hs Hc).
    rewrite (IH _ (points + 10) (question_count + 1)) by reflexivity.
    f_equal. f_equal; f_equal; lia.
Qed.

Lemma X20_score_witness :
  session_player_name session_started = Some "Eve" /\
  fst (play genv0 (repeat (GetNextQuestion (Some "true")) 12)
         session_started gw0) =
    {| session_player_name := Some "Eve"; session_score := Some 120;
       session_question_count := Some 12; session_movie_q := None |}.
Proof.
  split; [reflexivity|].
  exact (f_equal fst
           (X20_score_has_no_cap genv0 11 session_started gw0 "Eve" 0 0
              eq_refl eq_refl eq_refl)).
Defined.

(** X21: reloading the question page does not draw a new question: when
    [/movie-question] has answered, the same request on the session and
    world it left gives the same answer and changes nothing, so no
    request goes to TMDB and no random number is drawn. *)
Theorem X21_reload_keeps_question (genv : GameEnv) (session : GameSession)
    (gw : GameWorld) (page : GameResponse) :
  snd (movie_question genv session gw) = Ok page ->
  let session1 := fst (fst (movie_question genv session gw)) in
  let gw1 := snd (fst (movie_question genv session gw)) in
  movie_question genv session1 gw1 = (session1, gw1, Ok page).
Proof.
  unfold movie_question.
  destruct (session_player_name session) as [player_name|] eqn:Hp.
  2:{ simpl. intros [= <-]. rewrite Hp. reflexivity. }
  destruct (10 <=? default 0 (session_question_count session)) eqn:Hc.
  { simpl. intros [= <-]. rewrite Hp, Hc. reflexivity. }
  destruct (session_movie_q session) as [q|] eqn:Hq.
  { simpl. intros Hr. rewrite Hp, Hc, Hq, Hr. reflexivity. }
  destruct (get_movie_question genv gw) as [gw' [q|e]]; simpl;
    [|discriminate].
  intros Hr. rewrite Hp, Hc, Hr. reflexivity.
Qed.

Lemma X21_reload_witness :
  snd (movie_question genv0 session_started gw0) =
    Ok (RenderQuestion
          {| question_poster :=
               {| poster_url := "https://image.tmdb.org/t/p/w500/f.jpg";
                  poster_id := "92eb5ffee6ae2fec" |};
             options := ["Dune"; "Alien"; "Eraserhead"; "Fargo"];
             answer_index := 3 |} "Eve" 0 1) /\
  snd (movie_question genv0
         (fst (fst (movie_question genv0 session_started gw0)))
         (snd (fst (movie_question genv0 session_started gw0)))) =
  snd (movie_question genv0 session_started gw0).
Proof.
  assert (H : snd (movie_question genv0 session_started gw0) =
    Ok (RenderQuestion
          {| question_poster :=
               {| poster_url := "https://image.tmdb.org/t/p/w500/f.jpg";
                  poster_id := "92eb5ffee6ae2fec" |};
             options := ["Dune"; "Alien"; "Eraserhead"; "Fargo"];
             answer_index := 3 |} "Eve" 0 1)) by reflexivity.
  split; [exact H|].
  rewrite (X21_reload_keeps_question genv0 session_started gw0 _ H).
  simpl. symmetry. exact H.
Defined.

Lemma length_ind {A} (P : list A -> Prop) :
  (forall l, (forall l', (length l' < length l)%nat -> P l') -> P l) ->
  forall l, P l.
Proof.
  intros H l.
  assert (Hn : forall n l0, (length l0 < n)%nat -> P l0).
  { induction n as [|n IH]; intros l0 Hl; [lia|].
    apply H. intros l' Hl'. apply IH. lia. }
  apply (Hn (S (length l))). lia.
Qed.

Section WhitespaceFacts.

Context (s1 : ascii -> bool) (s2 : ascii -> ascii -> bool)
        (s3 : ascii -> ascii -> ascii -> bool).

Local Abbreviation drop := (drop_spaces s1 s2 s3).
Local Abbreviation spaces := (all_spaces s1 s2 s3).
Local Abbreviation begins := (at_space s1 s2 s3).

(** What is dropped is whitespace, and what is left does not begin with
    whitespace. *)
Lemma drop_spaces_split (l : list ascii) :
  exists lead, l = lead ++ drop l /\ spaces lead = true.
Proof.
  induction l as [l IH] using length_ind.
  destruct l as [|a l1]; [exists []; auto|].
  simpl. destruct (s1 a) eqn:H1.
  { destruct (IH l1) as (lead & Hl & Hs); [simpl; lia|].
    exists (a :: lead). simpl. rewrite H1. split; [congruence | exact Hs]. }
  destruct l1 as [|b l2]; [exists []; auto|].
  destruct (s2 a b) eqn:H2.
  { destruct (IH l2) as (lead & Hl & Hs); [simpl; lia|].
    exists (a :: b :: lead). simpl. rewrite H1, H2.
    split; [congruence | exact Hs]. }
  destruct l2 as [|c l3]; [exists []; auto|].
  destruct (s3 a b c) eqn:H3; [|exists []; auto].
  destruct (IH l3) as (lead & Hl & Hs); [simpl; lia|].
  exists (a :: b :: c :: lead). simpl. rewrite H1, H2, H3.
  split; [congruence | exact Hs].
Qed.

Lemma drop_spaces_not_at_space (l : list ascii) : begins (drop l) = false.
Proof.
  induction l as [l IH] using length_ind.
  destruct l as [|a l1]; [reflexivity|].
  simpl. destruct (s1 a) eqn:H1; [apply IH; simpl; lia|].
  destruct l1 as [|b l2]; [simpl; now rewrite H1|].
  destruct (s2 a b) eqn:H2; [apply IH; simpl; lia|].
  destruct l2 as [|c l3]; [simpl; now rewrite H1, H2|].
  destruct (s3 a b c) eqn:H3; [apply IH; simpl; lia|].
  simpl. now rewrite H1, H2, H3.
Qed.

Lemma all_spaces_drop (l : list ascii) : spaces l = true -> drop l = [].
Proof.
  induction l as [l IH] using length_ind.
  destruct l as [|a l1]; [reflexivity|].
  simpl. destruct (s1 a); [apply IH; simpl; lia|].
  destruct l1 as [|b l2]; [discriminate|].
  destruct (s2 a b); [apply IH; simpl; lia|].
  destruct l2 as [|c l3]; [discriminate|].
  destruct (s3 a b c); [apply IH; simpl; lia | discriminate].
Qed.

Lemma drop_all_spaces (l : list ascii) : drop l = [] -> spaces l = true.
Proof.
  intros H. destruct (drop_spaces_split l) as (lead & Hl & Hs).
  rewrite H, app_nil_r in Hl. now subst lead.
Qed.

Lemma all_spaces_app (l1 l2 : list ascii) :
  spaces l1 = true -> spaces (l1 ++ l2) = spaces l2.
Proof.
  induction l1 as [l1 IH] using length_ind.
  destruct l1 as [|a l]; [reflexivity|].
  simpl. destruct (s1 a); [apply IH; simpl; lia|].
  destruct l as [|b l]; [discriminate|].
  simpl. destruct (s2 a b); [apply IH; simpl; lia|].
  destruct l as [|c l]; [discriminate|].
  simpl. destruct (s3 a b c); [apply IH; simpl; lia | discriminate].
Qed.

Lemma all_spaces_at_space (l : list ascii) :
  spaces l = true -> l <> [] -> begins l = true.
Proof.
  destruct l as [|a l1]; [congruence|]. intros H _. simpl in *.
  destruct (s1 a); [reflexivity|].
  destruct l1 as [|b l2]; [discriminate|].
  destruct (s2 a b); [reflexivity|].
  destruct l2 as [|c l3]; [discriminate|].
  simpl. now apply andb_true_iff in H as [-> _].
Qed.

Lemma at_space_app (l1 l2 : list ascii) :
  begins l1 = true -> begins (l1 ++ l2) = true.
Proof.
  destruct l1 as [|a l]; [discriminate|]. simpl.
  destruct (s1 a); [reflexivity|].
  destruct l as [|b l]; [discriminate|]. simpl.
  destruct (s2 a b); [reflexivity|].
  destruct l as [|c l]; [discriminate|]. simpl. auto.
Qed.

End WhitespaceFacts.

(** Whitespace read backwards is whitespace. *)
Lemma whitespace_reversed (r : list ascii) :
  all_spaces space1 (fun b a => space2 a b) (fun c b a => space3 a b c) r
    = true ->
  whitespace_only (rev r) = true.
Proof.
  unfold whitespace_only.
  induction r as [r IH] using length_ind.
  destruct r as [|a r1]; [reflexivity|].
  simpl. destruct (space1 a) eqn:H1.
  { intros H. rewrite all_spaces_app by (apply IH; [simpl; lia | exact H]).
    simpl. now rewrite H1. }
  destruct r1 as [|b r2]; [discriminate|].
  destruct (space2 b a) eqn:H2.
  { intros H. simpl. rewrite <- app_assoc.
    rewrite all_spaces_app by (apply IH; [simpl; lia | exact H]).
    assert (Hb : space1 b = false).
    { unfold space2 in H2.
      destruct (Ascii.eqb_spec b "194") as [->|]; [reflexivity|].
      discriminate. }
    simpl. now rewrite Hb, H2. }
  destruct r2 as [|c r3]; [discriminate|].
  intros H. apply andb_true_iff in H as [H3 H].
  simpl. rewrite <- !app_assoc.
  rewrite all_spaces_app by (apply IH; [simpl; lia | exact H]).
  simpl.
  assert (Hc : space1 c = false).
  { unfold space3 in H3. unfold space1.
    destruct (Ascii.eqb_spec c "225") as [->|]; [reflexivity|].
    destruct (Ascii.eqb_spec c "226") as [->|]; [reflexivity|].
    destruct (Ascii.eqb_spec c "227") as [->|]; [reflexivity|].
    simpl in H3. discriminate. }
  assert (Hcb : space2 c b = false).
  { unfold space3 in H3. unfold space2.
    destruct (Ascii.eqb_spec c "194") as [->|]; [|reflexivity].
    simpl in H3. discriminate. }
  now rewrite Hc, Hcb, H3.
Qed.

(** [s.strip()] cut out of [s]: what [lstrip] drops, then what [rstrip]
    drops. *)
Lemma strip_parts (s : string) :
  exists lead trail,
    list_ascii_of_string s = lead ++ lstrip_bytes (list_ascii_of_string s) /\
    lstrip_bytes (list_ascii_of_string s) =
      list_ascii_of_string (strip s) ++ trail /\
    whitespace_only lead = true /\ whitespace_only trail = true.
Proof.
  unfold strip. rewrite list_ascii_of_string_of_list_ascii.
  unfold rstrip_reversed, lstrip_bytes.
  destruct (drop_spaces_split space1 space2 space3 (list_ascii_of_string s))
    as (lead & Hl & Hlead).
  destruct (drop_spaces_split space1 (fun b a => space2 a b)
              (fun c b a => space3 a b c)
              (rev (drop_spaces space1 space2 space3
                      (list_ascii_of_string s))))
    as (trail & Ht & Htrail).
  exists lead, (rev trail). split; [exact Hl|]. split; [|split].
  - rewrite <- rev_app_distr, <- Ht, rev_involutive. reflexivity.
  - exact Hlead.
  - now apply whitespace_reversed.
Qed.

Lemma strip_split (s : string) :
  exists lead trail,
    list_ascii_of_string s =
      lead ++ list_ascii_of_string (strip s) ++ trail /\
    whitespace_only lead = true /\ whitespace_only trail = true.
Proof.
  destruct (strip_parts s) as (lead & trail & Hl & Ht & Hlead & Htrail).
  exists lead, trail. rewrite <- Ht. auto.
Qed.

Lemma strip_blank (s : string) :
  whitespace_only (list_ascii_of_string s) = true -> strip s = "".
Proof.
  intros H. unfold strip, lstrip_bytes.
  now rewrite (all_spaces_drop _ _ _ _ H).
Qed.

Lemma strip_not_blank (s : string) :
  whitespace_only (list_ascii_of_string s) = false ->
  strip s <> "" /\
  starts_with_space (strip s) = false /\ ends_with_space (strip s) = false.
Proof.
  intros H.
  destruct (strip_parts s) as (lead & trail & Hl & Ht & Hlead & Htrail).
  split; [|split].
  - intros Hempty. rewrite Hempty in Ht. simpl in Ht.
    rewrite Ht in Hl.
    assert (Hall : whitespace_only (list_ascii_of_string s) = true).
    { rewrite Hl. unfold whitespace_only in *. now rewrite all_spaces_app. }
    congruence.
  - unfold starts_with_space.
    destruct (at_space space1 space2 space3
                (list_ascii_of_string (strip s))) eqn:Hat; [|reflexivity].
    pose proof (drop_spaces_not_at_space space1 space2 space3
                  (list_ascii_of_string s)) as Hno.
    fold lstrip_bytes in Hno. rewrite Ht in Hno.
    now rewrite (at_space_app _ _ _ _ trail Hat) in Hno.
  - unfold ends_with_space, strip.
    rewrite list_ascii_of_string_of_list_ascii, rev_involutive.
    apply drop_spaces_not_at_space.
Qed.

(** X22: [/start-game] starts a game only for a name that is more than
    whitespace, the whitespace being that of [str.strip()], with the
    characters beyond ASCII that Python counts as whitespace.  With no
    name, or a name of whitespace only, the session is left as it is and
    the client is sent home; otherwise the session is replaced by a fresh
    one, score 0 and question count 0, whose name is the given one without
    the whitespace around it: it is not empty, it neither begins nor ends
    with a whitespace character, and the given name is this name between
    two runs of whitespace. *)
Theorem X22_start_game_name (form_player_name : option string)
    (session : GameSession) (gw : GameWorld) :
  let given := default "" form_player_name in
  (whitespace_only (list_ascii_of_string given) = true ->
   start_game form_player_name session gw =
     (session, gw, Ok (RedirectTo "home"))) /\
  (whitespace_only (list_ascii_of_string given) = false ->
   start_game form_player_name session gw =
     ({| session_player_name := Some (strip given);
         session_score := Some 0;
         session_question_count := Some 0;
         session_movie_q := None |}, gw, Ok (RedirectTo "movie_question")) /\
   strip given <> "" /\
   starts_with_space (strip given) = false /\
   ends_with_space (strip given) = false /\
   exists lead trail,
     list_ascii_of_string given =
       lead ++ list_ascii_of_string (strip given) ++ trail /\
     whitespace_only lead = true /\ whitespace_only trail = true).
Proof.
  simpl. split.
  - intros H. unfold start_game. rewrite (strip_blank _ H). reflexivity.
  - intros H.
    destruct (strip_not_blank _ H) as (Hne & Hs & He).
    split; [|split; [exact Hne|split; [exact Hs|split; [exact He|]]]].
    + unfold start_game.
      destruct (String.eqb_spec (strip (default "" form_player_name)) "")
        as [Hempty|_]; [contradiction | reflexivity].
    + apply strip_split.
Qed.

Example start_game_blank :
  start_game (Some "  ") session_eve gw0 =
    (session_eve, gw0, Ok (RedirectTo "home")).
Proof. reflexivity. Qed.

Example start_game_padded :
  fst (fst (start_game (Some "  Ann Lee ") session_eve gw0)) =
    {| session_player_name := Some "Ann Lee"; session_score := Some 0;
       session_question_count := Some 0; session_movie_q := None |}.
Proof. reflexivity. Qed.

Example start_game_wide_blank :
  start_game (Some name_wide_blank) session_eve gw0 =
    (session_eve, gw0, Ok (RedirectTo "home")).
Proof. reflexivity. Qed.

Example start_game_wide_padded :
  fst (fst (start_game (Some name_wide_padded) session_eve gw0)) =
    {| session_player_name := Some "Ann"; session_score := Some 0;
       session_question_count := Some 0; session_movie_q := None |}.
Proof. reflexivity. Qed.

Lemma X22_start_game_witness :
  whitespace_only (list_ascii_of_string (default "" (Some name_wide_blank)))
    = true /\
  start_game (Some name_wide_blank) session_eve gw0 =
    (session_eve, gw0, Ok (RedirectTo "home")).
Proof.
  split; [reflexivity|].
  exact (proj1 (X22_start_game_name (Some name_wide_blank) session_eve gw0)
           eq_refl).
Defined.

(** ** [get_movie_question] *)

Lemma sample_from_length (genv : GameEnv) (k : nat) (pool : list Movie)
    (d : nat) :
  (k <= length pool)%nat -> length (sample_from genv pool k d) = k.
Proof.
  revert pool d. induction k as [|k IH]; intros pool d Hk; simpl;
    [reflexivity|].
  assert (Hj : (randbelow genv d (length pool) < length pool)%nat)
    by (unfold randbelow; apply Nat.mod_upper_bound; lia).
  destruct (lookup_lt_is_Some_2 pool _ Hj) as [picked ->].
  destruct (lookup_lt_is_Some_2 pool (length pool - 1)) as [last ->];
    [lia|].
  simpl. f_equal. apply IH.
  rewrite length_take, length_insert. lia.
Qed.

Lemma sample_from_subset (genv : GameEnv) (k : nat) (pool : list Movie)
    (d : nat) (m : Movie) :
  In m (sample_from genv pool k d) -> In m pool.
Proof.
  revert pool d. induction k as [|k IH]; intros pool d; simpl; [tauto|].
  destruct (pool !! randbelow genv d (length pool)) as [picked|] eqn:Hp;
    [|simpl; tauto].
  destruct (pool !! (length pool - 1)%nat) as [last|] eqn:Hl;
    [|simpl; tauto].
  intros [<- | Hm].
  - apply list_elem_of_In. eapply list_elem_of_lookup_2. exact Hp.
  - apply IH in Hm. apply list_elem_of_In in Hm.
    apply list_elem_of_lookup in Hm as [i Hi].
    apply lookup_take_Some in Hi as [Hi _].
    apply list_lookup_insert_Some in Hi as [(_ & <- & _) | (_ & Hi)];
      apply list_elem_of_In; eapply list_elem_of_lookup_2; eassumption.
Qed.

Lemma list_index_lookup (t : string) (options : list string) (i : nat) :
  list_index t options = Some i -> options !! i = Some t.
Proof.
  revert i. induction options as [|o rest IH]; intros i; simpl;
    [discriminate|].
  destruct (String.eqb_spec o t) as [->|_].
  - intros [= <-]. reflexivity.
  - destruct (list_index t rest) as [j|]; [|discriminate].
    intros [= <-]. simpl. now apply IH.
Qed.

(** X23: a question that [get_movie_question] returns is sound: the API
    key is set, one request went to TMDB, there are four options, each
    the title of a movie of the answer that has a poster, the poster is
    that of such a movie, [answer_index] points at the title of that very
    movie, and the id is the digest of the poster url. *)
Theorem X23_question_is_sound (genv : GameEnv) (gw gw' : GameWorld)
    (q : MovieQuestion) :
  get_movie_question genv gw = (gw', Ok q) ->
  exists api_key results correct_movie path,
    TMDB_API_KEY genv = Some api_key /\ api_key <> "" /\
    tmdb_popular genv (api_calls gw) = Ok results /\
    api_calls gw' = S (api_calls gw) /\
    leaderboard_file gw' = leaderboard_file gw /\
    length (options q) = 4%nat /\
    (forall o, In o (options q) ->
       exists m, In m results /\ has_poster m = true /\ title m = o) /\
    In correct_movie results /\
    poster_path correct_movie = Some path /\ path <> "" /\
    poster_url (question_poster q) = TMDB_IMAGE_BASE +:+ path /\
    poster_id (question_poster q) =
      md5_hexdigest genv (poster_url (question_poster q)) /\
    options q !! answer_index q = Some (title correct_movie).
Proof.
  unfold get_movie_question.
  destruct (TMDB_API_KEY genv) as [api_key|]; [|discriminate].
  destruct (String.eqb_spec api_key "") as [|Hkey]; [discriminate|].
  destruct (tmdb_popular genv (api_calls gw)) as [results|e];
    [|discriminate].
  destruct (Nat.ltb_spec (length (List.filter has_poster results)) 4)
    as [|Hfour]; [discriminate|].
  set (chosen := sample_from genv (List.filter has_poster results) 4
                   (draws gw)).
  destruct (chosen !! randbelow genv (draws gw + 4) (length chosen))
    as [correct_movie|] eqn:Hchoice; [|discriminate].
  destruct (list_index (title correct_movie) (map title chosen))
    as [i|] eqn:Hidx; [|discriminate].
  intros [= <- <-]. simpl.
  assert (Hin : In correct_movie (List.filter has_poster results)).
  { apply (sample_from_subset genv 4 _ (draws gw)).
    apply list_elem_of_In. eapply list_elem_of_lookup_2. exact Hchoice. }
  apply filter_In in Hin as [Hin Hposter].
  unfold has_poster in Hposter.
  destruct (poster_path correct_movie) as [path|] eqn:Hpath;
    [|discriminate].
  exists api_key, results, correct_movie, path.
  repeat split; try assumption; try reflexivity.
  - rewrite length_map. apply sample_from_length. exact Hfour.
  - intros o Ho. apply in_map_iff in Ho as (m & <- & Hm).
    apply sample_from_subset in Hm. apply filter_In in Hm as [Hm Hp].
    exists m. auto.
  - intros ->. discriminate.
  - now apply list_index_lookup.
Qed.

Lemma X23_question_witness :
  fst (get_movie_question genv0 gw0) =
    {| leaderboard_file := Holds board0; api_calls := 1; draws := 5 |} /\
  exists q, snd (get_movie_question genv0 gw0) = Ok q /\
            options q !! answer_index q = Some "Fargo".
Proof.
  split; [reflexivity|].
  eexists. split; [reflexivity|].
  destruct (X23_question_is_sound genv0 gw0 _ _ eq_refl)
    as (k & r & m & p & _).
  reflexivity.
Defined.

(** X24: without an API key the question page cannot be drawn, and
    nothing is tried: for a named player with fewer than ten questions
    and no pending question, [/movie-question] raises [RuntimeError],
    sends no request to TMDB, draws no random number and leaves the
    session as it is; the same happens, after the one request, when fewer
    than four movies of the answer have a poster. *)
Theorem X24_question_page_fails_early (genv : GameEnv)
    (session : GameSession) (gw : GameWorld) (player_name : string) :
  session_player_name session = Some player_name ->
  default 0 (session_question_count session) < 10 ->
  session_movie_q session = None ->
  ((TMDB_API_KEY genv = None \/ TMDB_API_KEY genv = Some "") ->
   movie_question genv session gw =
     (session, gw, Raise (Exception "RuntimeError"))) /\
  (forall api_key results,
     TMDB_API_KEY genv = Some api_key -> api_key <> "" ->
     tmdb_popular genv (api_calls gw) = Ok results ->
     (length (List.filter has_poster results) < 4)%nat ->
     movie_question genv session gw =
       (session,
        {| leaderboard_file := leaderboard_file gw;
           api_calls := S (api_calls gw); draws := draws gw |},
        Raise (Exception "RuntimeError"))).
Proof.
  intros Hp Hc Hq. unfold movie_question, get_movie_question.
  rewrite Hp, Hq. rewrite (proj2 (Z.leb_gt 10 _)) by lia.
  split.
  - intros [-> | ->]; reflexivity.
  - intros api_key results -> Hkey -> Hfew.
    destruct (String.eqb_spec api_key ""); [contradiction|].
    rewrite (proj2 (Nat.ltb_lt _ _) Hfew). reflexivity.
Qed.

Lemma X24_question_page_witness :
  session_player_name session_started = Some "Eve" /\
  movie_question
    {| TMDB_API_KEY := None; tmdb_popular := tmdb_popular genv0;
       random_draw := random_draw genv0;
       md5_hexdigest := md5_hexdigest genv0 |} session_started gw0 =
    (session_started, gw0, Raise (Exception "RuntimeError")).
Proof.
  split; [reflexivity|].
  refine (proj1 (X24_question_page_fails_early _ session_started gw0 "Eve"
                   eq_refl _ eq_refl) _).
  - simpl. lia.
  - left. reflexivity.
Defined.

(** ** The question page and the poster route together *)





(** ** The mask handed to [cv2.inpaint] *)

Lemma loop_binary (threshold : Q) (pad h w : Z) (dets : list Detection)
    (mask : Mask) (n : Z) (x y : nat) (v : Z) :
  (forall v0, pixel_at mask x y = Some v0 -> v0 = 0 \/ v0 = 255) ->
  pixel_at (fst (fold_left (mask_step threshold pad h w) dets (mask, n)))
    x y = Some v ->
  v = 0 \/ v = 255.
Proof.
  revert mask n. induction dets as [|d dets IH]; intros mask n Hm; simpl.
  - apply Hm.
  - destruct (accepted threshold d); apply IH; [|exact Hm].
    intros v0. rewrite pixel_at_paint_rectangle.
    destruct (pixel_at mask x y) as [v1|] eqn:Hv; simpl; [|discriminate].
    destruct (in_footprintb _ _ _); intros [= <-]; auto.
Qed.

(** X26: whatever the detections, also those that lie outside the image,
    the mask that is built has exactly the positions of the image, and
    each of its values is 0 or 255; the loop of the source returns no
    other mask. *)
Theorem X26_mask_fits_image {A} (t : Q) (pad : Z) (img : list (list A))
    (dets : list Detection) (x y : nat) :
  (is_Some (pixel_at (fst (build_mask t pad img dets)) x y) <->
   Z.of_nat x < shape1 img /\ Z.of_nat y < shape0 img) /\
  (forall v, pixel_at (fst (build_mask t pad img dets)) x y = Some v ->
             v = 0 \/ v = 255) /\
  (forall mask n, mask_loop t pad img dets = Ok (mask, n) ->
                  mask = fst (build_mask t pad img dets)).
Proof.
  split; [|split];
    [| |intros mask n H; now rewrite <- (mask_loop_returns _ _ _ _ _ H)];
    unfold build_mask.
  - rewrite loop_keeps_positions, pixel_at_np_zeros.
    destruct (decide (Z.of_nat x < shape1 img /\ Z.of_nat y < shape0 img))
      as [Hin|Hout]; split; intros H; try tauto.
    + eexists; reflexivity.
    + destruct H as [v [=]].
  - intros v. apply loop_binary. intros v0.
    rewrite pixel_at_np_zeros. destruct (decide _); intros [= <-]. auto.
Qed.

(** ** Cache paths *)

Lemma list_ascii_of_string_app (a b : string) :
  list_ascii_of_string (a +:+ b) =
  list_ascii_of_string a ++ list_ascii_of_string b.
Proof.
  induction a as [|c a IH]; simpl; [reflexivity|]. now rewrite IH.
Qed.

Lemma list_ascii_of_string_inj (a b : string) :
  list_ascii_of_string a = list_ascii_of_string b -> a = b.
Proof.
  intros H. rewrite <- (string_of_list_ascii_of_string a),
    <- (string_of_list_ascii_of_string b). now rewrite H.
Qed.

Lemma jpg_name_inj (prefix a b : string) :
  prefix +:+ a +:+ ".jpg" = prefix +:+ b +:+ ".jpg" -> a = b.
Proof.
  intros H. apply (f_equal list_ascii_of_string) in H.
  rewrite !list_ascii_of_string_app in H.
  apply app_inv_head in H. apply app_inv_tail in H.
  now apply list_ascii_of_string_inj.
Qed.

Lemma no_sep_jpg (poster_id : string) :
  no_sep poster_id -> starts_with_sep (poster_id +:+ ".jpg") = false.
Proof.
  unfold no_sep. destruct poster_id as [|c s]; simpl; [reflexivity|].
  destruct (is_sep c); [discriminate | reflexivity].
Qed.

Lemma drop_while_stop (f : ascii -> bool) (l : list ascii) (c : ascii)
    (tl : list ascii) :
  forallb f l = true -> f c = false ->
  drop_while f (l ++ c :: tl) = c :: tl.
Proof.
  intros Hl Hc. induction l as [|a l IH]; simpl.
  - now rewrite Hc.
  - simpl in Hl. apply andb_true_iff in Hl as [Ha Hl].
    rewrite Ha. now apply IH.
Qed.

(** X27: for ids without a separator, as the route's converter delivers
    them, two different ids never share a cache file; and when the
    configured directory is not empty and does not end in a separator,
    the directory [save_processed_image] creates for the file of an id is
    that directory. *)
Theorem X27_cache_paths (env : Env) (id1 id2 : string) :
  no_sep id1 -> no_sep id2 ->
  (processed_path_of env id1 = processed_path_of env id2 -> id1 = id2) /\
  (PROCESSED_IMAGES_DIR env <> "" ->
   ends_with_sep (PROCESSED_IMAGES_DIR env) = false ->
   os_path_dirname (processed_path_of env id1) = PROCESSED_IMAGES_DIR env).
Proof.
  intros H1 H2. unfold processed_path_of, os_path_join.
  rewrite (no_sep_jpg _ H1), (no_sep_jpg _ H2).
  split.
  - destruct (String.eqb (PROCESSED_IMAGES_DIR env) ""
              || ends_with_sep (PROCESSED_IMAGES_DIR env)).
    + apply jpg_name_inj.
    + intros H. apply (jpg_name_inj (PROCESSED_IMAGES_DIR env +:+ "/")).
      apply list_ascii_of_string_inj.
      apply (f_equal list_ascii_of_string) in H.
      rewrite !list_ascii_of_string_app in *.
      rewrite <- !app_assoc. exact H.
  - intros Hne Hend.
    destruct (String.eqb_spec (PROCESSED_IMAGES_DIR env) "");
      [contradiction|].
    rewrite Hend. simpl orb. cbv iota.
    unfold os_path_dirname.
    set (dir := list_ascii_of_string (PROCESSED_IMAGES_DIR env)) in *.
    set (file := list_ascii_of_string (id1 +:+ ".jpg")).
    assert (Hpath :
      rev (list_ascii_of_string
             (PROCESSED_IMAGES_DIR env +:+ "/" +:+ id1 +:+ ".jpg")) =
      rev file ++ "/"%char :: rev dir).
    { rewrite !list_ascii_of_string_app. fold dir.
      rewrite <- list_ascii_of_string_app. fold file.
      simpl. rewrite rev_app_distr. simpl. now rewrite <- app_assoc. }
    rewrite Hpath.
    assert (Hfile : forallb (fun c => negb (is_sep c)) (rev file) = true).
    { rewrite forallb_rev. subst file.
      rewrite list_ascii_of_string_app, forallb_app.
      unfold no_sep in H1. rewrite H1. reflexivity. }
    rewrite (drop_while_stop _ _ "/"%char _ Hfile eq_refl).
    unfold ends_with_sep in Hend. fold dir in Hend.
    destruct (rev dir) as [|c l] eqn:Hrev.
    { exfalso. apply n. apply list_ascii_of_string_inj.
      fold dir. rewrite <- (rev_involutive dir), Hrev. reflexivity. }
    simpl. rewrite Hend. simpl.
    change (rev l ++ [c]) with (rev (c :: l)).
    rewrite <- Hrev, rev_involutive. subst dir.
    apply string_of_list_ascii_of_string.
Qed.

Lemma X27_cache_paths_witness :
  no_sep "0cc175b9c0f1b6a8" /\ no_sep "92eb5ffee6ae2fec" /\
  os_path_dirname (processed_path_of env_titles "0cc175b9c0f1b6a8") =
    "/app/static/processed_images".
Proof.
  split; [reflexivity|]. split; [reflexivity|].
  refine (proj2 (X27_cache_paths env_titles "0cc175b9c0f1b6a8"
                   "92eb5ffee6ae2fec" eq_refl eq_refl) _ eq_refl).
  discriminate.
Defined.
